(** * The Serena MCP server ([src/serena/mcp.py]): a shallow embedding

    The module adapts the tools of a [SerenaAgent] to descriptors of the
    MCP server ([make_tool]), keeps one agent per project file in a
    process-wide registry ([_get_create_serena_agent]) and stops the
    language server of every registered agent when the server's lifespan
    ends ([server_lifespan]).

    Python objects with identity live in a store ([World]); functions
    with effects are state transformers that may raise ([M]). *)

From Stdlib Require Import Ascii String ZArith Lia.
From stdpp Require Import base option list gmap strings.


(** ** Exceptions and results *)

Inductive Exn : Type :=
| AttributeError (msg : string)
| ValueError (msg : string)
| TypeError (msg : string)
| KeyError (key : string)
| IndexError (msg : string)
| SystemExit (code : Z)
| Exception (msg : string).

Inductive Result (A : Type) : Type :=
| Ok (a : A)
| Raise (e : Exn).

Arguments Ok {A} a.
Arguments Raise {A} e.

#[export] Instance Result_ret : MRet Result := fun A a => Ok a.
#[export] Instance Result_bind : MBind Result := fun A B f r =>
  match r with
  | Ok a => f a
  | Raise e => Raise e
  end.

Definition is_Ok {A} (r : Result A) : Prop := exists a, r = Ok a.
Definition is_Raise {A} (r : Result A) : Prop := exists e, r = Raise e.

(** [str(e)] of an exception, as used in descriptions of failures. *)
Definition exn_str (e : Exn) : string :=
  match e with
  | AttributeError m => "AttributeError: " +:+ m
  | ValueError m => "ValueError: " +:+ m
  | TypeError m => "TypeError: " +:+ m
  | KeyError k => "KeyError: " +:+ k
  | IndexError m => "IndexError: " +:+ m
  | SystemExit _ => "SystemExit"
  | Exception m => "Exception: " +:+ m
  end.

(** The descriptive string that stands for an exception caught during
    the execution of a tool. *)
Definition failure_description (e : Exn) : string :=
  "Error executing tool: " +:+ exn_str e.

(** ** Python dictionaries

    A [dict] keeps its keys in insertion order; assigning to a key that
    is present replaces the value in place, assigning to a new key
    appends.  [_SERENA_AGENT_REGISTRY] and the tool table of the server
    are such dictionaries with string keys. *)

Definition dict (V : Type) : Type := list (string * V).

Fixpoint dict_getitem {V} (k : string) (d : dict V) : option V :=
  match d with
  | [] => None
  | (k', v) :: d' => if decide (k' = k) then Some v else dict_getitem k d'
  end.

Definition dict_contains {V} (k : string) (d : dict V) : bool :=
  bool_decide (is_Some (dict_getitem k d)).

Fixpoint dict_setitem {V} (k : string) (v : V) (d : dict V) : dict V :=
  match d with
  | [] => [(k, v)]
  | (k', v') :: d' =>
      if decide (k' = k) then (k', v) :: d' else (k', v') :: dict_setitem k v d'
  end.

Definition dict_keys {V} (d : dict V) : list string := d.*1.
Definition dict_values {V} (d : dict V) : list V := d.*2.

(** ** Values passed as keyword arguments *)

Inductive PyVal : Type :=
| VNone
| VBool (b : bool)
| VInt (z : Z)
| VStr (s : string).

(** The keyword arguments of a call, [**kwargs]: a dictionary from the
    names to the values, in the order in which the call gave them. *)
Abbreviation Kwargs := (dict PyVal).

(** What an attribute of a tool object can hold: [None], a function
    (with its [__doc__], the names of its parameters and its behaviour on
    keyword arguments), or some object that cannot be called. *)
Inductive PyObj : Type :=
| PyNone
| PyFunction (doc : option string) (params : list string)
    (body : Kwargs -> Result string)
| PyOther (doc : option string).

Definition obj_doc (o : PyObj) : option string :=
  match o with
  | PyNone => None
  | PyFunction doc _ _ => doc
  | PyOther doc => doc
  end.

Definition is_none (o : PyObj) : bool :=
  match o with
  | PyNone => true
  | _ => false
  end.

Definition callable (o : PyObj) : bool :=
  match o with
  | PyFunction _ _ _ => true
  | _ => false
  end.

(** [x or ""] for [x] a string or [None]: the empty string and [None]
    are both falsy. *)
Definition or_empty (x : option string) : string :=
  match x with
  | Some s => if decide (s = "") then "" else s
  | None => ""
  end.

(** ** Tools ([serena.agent.Tool])

    [get_name] is the value of [tool.get_name()], [tool_str] the text of
    [str(tool)], [class_name] the name of the class of the object, and
    [apply] the attribute [apply] of the object, [None] (of [option])
    when the object has no such attribute.  [apply_ex_clash k] is the
    text of the [TypeError] that the interpreter raises for a call of
    [tool.apply_ex] in which the argument [k] gets two values; the text
    names the method as the interpreter prints it, which depends on the
    class and on the version of the interpreter. *)
Record Tool : Type := {
  get_name : string;
  tool_str : string;
  class_name : string;
  apply_ex_clash : string -> string;
  apply : option PyObj
}.

(** [getattr(tool, "apply")], without a default. *)
Definition getattr_apply (tool : Tool) : Result PyObj :=
  match apply tool with
  | Some o => Ok o
  | None =>
      Raise (AttributeError
               ("'" +:+ class_name tool +:+ "' object has no attribute 'apply'"))
  end.

(** Calling an object with keyword arguments. *)
Definition call_obj (o : PyObj) (kwargs : Kwargs) : Result string :=
  match o with
  | PyFunction _ _ body => body kwargs
  | _ => Raise (TypeError "object is not callable")
  end.

(** ** The store *)

Record LanguageServer : Type := {
  ls_running : bool
}.

(** An agent object.  [agent_id] is the identity of the object (its
    address); [language_server] is the address of its language server in
    [servers]; [tools] is [agent.tools.values()], in order. *)
Record SerenaAgent : Type := {
  agent_id : nat;
  project_file_path : string;
  language_server : nat;
  tools : list Tool
}.

Inductive Event : Type :=
| EvLogInfo (msg : string)
| EvStderr (text : string)
| EvBackendStarted (l : nat)
| EvStopInvoked (l : nat).

#[export] Instance Event_eq_dec : EqDecision Event.
Proof. solve_decision. Defined.

(** [agents] holds every agent constructed so far, at the index that is
    its [agent_id]; [servers] holds the language servers; [trace] records
    what the process has logged, printed and asked of the backends. *)
Record World : Type := {
  agents : list SerenaAgent;
  servers : list LanguageServer;
  _SERENA_AGENT_REGISTRY : dict SerenaAgent;
  trace : list Event
}.

Definition initial_world : World :=
  {| agents := []; servers := []; _SERENA_AGENT_REGISTRY := []; trace := [] |}.

(** ** Effectful code: state passing with exceptions.

    The store is returned also when the code raises: effects made before
    the exception stay. *)
Definition M (A : Type) : Type := World -> Result A * World.

#[export] Instance M_ret : MRet M := fun A a w => (Ok a, w).
#[export] Instance M_bind : MBind M := fun A B f m w =>
  match m w with
  | (Ok a, w') => f a w'
  | (Raise e, w') => (Raise e, w')
  end.

Definition raise {A} (e : Exn) : M A := fun w => (Raise e, w).

Definition lift {A} (r : Result A) : M A := fun w => (r, w).

Definition emit (ev : Event) : M unit := fun w =>
  (Ok tt,
   {| agents := agents w; servers := servers w;
      _SERENA_AGENT_REGISTRY := _SERENA_AGENT_REGISTRY w;
      trace := trace w ++ [ev] |}).

Definition log_info (msg : string) : M unit := emit (EvLogInfo msg).

(** [try: body finally: handler]: the handler always runs; if it raises,
    its exception replaces the outcome of the body. *)
Definition try_finally {A} (body : M A) (handler : M unit) : M A := fun w =>
  let '(r, w1) := body w in
  match handler w1 with
  | (Ok _, w2) => (r, w2)
  | (Raise e, w2) => (Raise e, w2)
  end.

Definition newline : string := String (ascii_of_nat 10) EmptyString.

(** [print(text, file=sys.stderr)] *)
Definition print_stderr (text : string) : M unit :=
  emit (EvStderr (text +:+ newline)).

(** [sys.exit(code)] *)
Definition sys_exit {A} (code : Z) : M A := raise (SystemExit code).

Definition registry_contains (k : string) : M bool := fun w =>
  (Ok (dict_contains k (_SERENA_AGENT_REGISTRY w)), w).

Definition registry_getitem (k : string) : M SerenaAgent := fun w =>
  match dict_getitem k (_SERENA_AGENT_REGISTRY w) with
  | Some a => (Ok a, w)
  | None => (Raise (KeyError k), w)
  end.

Definition registry_setitem (k : string) (a : SerenaAgent) : M unit := fun w =>
  (Ok tt,
   {| agents := agents w; servers := servers w;
      _SERENA_AGENT_REGISTRY := dict_setitem k a (_SERENA_AGENT_REGISTRY w);
      trace := trace w |}).

Definition registry_values : M (list SerenaAgent) := fun w =>
  (Ok (dict_values (_SERENA_AGENT_REGISTRY w)), w).

(** [for x in xs: body x]; an exception ends the loop. *)
Fixpoint for_each {A} (xs : list A) (body : A -> M unit) : M unit :=
  match xs with
  | [] => mret tt
  | x :: xs' => body x ;; for_each xs' body
  end.

(** The language server at address [l] is not running any more. *)
Definition set_stopped (l : nat) : M unit := fun w =>
  (Ok tt,
   {| agents := agents w;
      servers := alter (fun _ => {| ls_running := false |}) l (servers w);
      _SERENA_AGENT_REGISTRY := _SERENA_AGENT_REGISTRY w;
      trace := trace w |}).

(** Number of [stop()] calls on the language server [l] in a trace. *)
Definition stop_calls (l : nat) (evs : list Event) : nat :=
  length (filter (fun ev => ev = EvStopInvoked l) evs).

(** Number of agents constructed for the project file [p]. *)
Definition constructions (p : string) (w : World) : nat :=
  length (filter (fun a => project_file_path a = p) (agents w)).

(** ** The module [serena.mcp] *)

Section Mcp.

(** What the module takes from outside: the schema derivation of the
    MCP library ([func_metadata] and the JSON schema of its argument
    model), the tools an agent gets for a project file, and whether the
    [stop()] of a language server raises. *)
Context {FuncMetadata Schema : Type}.
Variable func_metadata : PyObj -> Result FuncMetadata.
Variable model_json_schema : FuncMetadata -> Result Schema.
Variable project_tools : string -> list Tool.
Variable stop_fault : nat -> option Exn.

(** [mcp.server.fastmcp.tools.base.Tool].  The fields have the types
    that the class declares. *)
Record MCPTool : Type := {
  fn : Kwargs -> M string;
  name : string;
  description : string;
  parameters : Schema;
  fn_metadata : FuncMetadata;
  is_async : bool;
  context_kwarg : option string
}.

(** Modelled from the spec: [Tool.apply_ex] of [serena.agent], which is
    not part of the sources at hand.  It delegates to the tool's
    [apply], logs the call when [log_call] is set and, when
    [catch_exceptions] is set, catches every exception raised during
    the execution and turns it into a descriptive string instead of
    raising it again. *)
Definition apply_ex (tool : Tool) (log_call catch_exceptions : bool)
    (kwargs : Kwargs) : M string :=
  (if log_call then log_info (get_name tool +:+ ": call") else mret tt) ;;
  match getattr_apply tool ≫= (fun apply_fn => call_obj apply_fn kwargs) with
  | Ok result => mret result
  | Raise e =>
      if catch_exceptions then mret (failure_description e)
      else raise e
  end.

(** A call [f(k1=v1, ..., **kwargs)] raises [TypeError] when [kwargs]
    holds one of the keywords written out in the call; the error names
    the first such key of [kwargs]. *)
Definition first_repeated (explicit : list string) (kwargs : Kwargs)
    : option string :=
  head (filter (fun k => k ∈ explicit) (dict_keys kwargs)).

(** The closure [execute_fn] of [make_tool]:
    [tool.apply_ex(log_call=True, catch_exceptions=True, **kwargs)].
    The call is that of a bound method: the tool is the value of the
    first parameter, [self], so that keyword arguments that bind [self]
    give it a second value.  Both errors are raised by the call, before
    [apply_ex] runs. *)
Definition execute_fn (tool : Tool) (kwargs : Kwargs) : M string :=
  match first_repeated ["log_call"; "catch_exceptions"] kwargs with
  | Some k => raise (TypeError (apply_ex_clash tool k))
  | None =>
      if decide ("self" ∈ dict_keys kwargs) then
        raise (TypeError (apply_ex_clash tool "self"))
      else apply_ex tool true true kwargs
  end.

(** [make_tool].  [tool.get_name()] is the accessor of the name; the
    schema derivation, [func_metadata(apply_fn)] and then
    [arg_model.model_json_schema()], may raise; [MCPTool(...)] is given
    values of the types that its fields declare. *)
Definition make_tool (tool : Tool) : Result MCPTool :=
  let func_name := get_name tool in
  apply_fn ← getattr_apply tool;
  if is_none apply_fn then
    Raise (ValueError ("Tool does not have an apply method: " +:+ tool_str tool))
  else
    let func_doc := or_empty (obj_doc apply_fn) in
    let is_async := false in
    func_arg_metadata ← func_metadata apply_fn;
    parameters ← model_json_schema func_arg_metadata;
    Ok {| fn := execute_fn tool;
          name := func_name;
          description := func_doc;
          parameters := parameters;
          fn_metadata := func_arg_metadata;
          is_async := is_async;
          context_kwarg := None |}.

(** The agent that the constructor builds in the store [w]. *)
Definition fresh_agent (p : string) (w : World) : SerenaAgent :=
  {| agent_id := length (agents w);
     project_file_path := p;
     language_server := length (servers w);
     tools := project_tools p |}.

(** Modelled from the spec: the constructor
    [SerenaAgent(project_file_path, start_language_server)] of
    [serena.agent], which is not part of the sources at hand.  It makes
    a new agent object with the tools of the project and a language
    server of its own, started when the flag is set. *)
Definition SerenaAgent_init (p : string) (start_language_server : bool)
    : M SerenaAgent := fun w =>
  let a := fresh_agent p w in
  (Ok a,
   {| agents := agents w ++ [a];
      servers := servers w ++ [{| ls_running := start_language_server |}];
      _SERENA_AGENT_REGISTRY := _SERENA_AGENT_REGISTRY w;
      trace := trace w ++
               (if start_language_server
                then [EvBackendStarted (language_server a)] else []) |}).

(** [language_server.stop()] of the server at address [l]: the call is
    recorded; it either raises, leaving the server as it is, or returns
    with the server stopped. *)
Definition language_server_stop (l : nat) : M unit :=
  emit (EvStopInvoked l) ;;
  match stop_fault l with
  | Some e => raise e
  | None => set_stopped l
  end.

Definition _get_create_serena_agent (project_file_path : string)
    : M SerenaAgent :=
  present ← registry_contains project_file_path;
  (if negb present then
     log_info ("Creating new SerenaAgent for project file: " +:+ project_file_path) ;;
     a ← SerenaAgent_init project_file_path true;
     registry_setitem project_file_path a
   else
     log_info ("Reusing existing SerenaAgent for project file: " +:+ project_file_path)) ;;
  registry_getitem project_file_path.

(** The [finally] block of [server_lifespan]. *)
Definition shutdown_sweep : M unit :=
  vs ← registry_values;
  for_each vs (fun agent => language_server_stop (language_server agent)).

(** [server_lifespan]: the body of the [with] statement, that is the
    run loop of the server, runs at the [yield]. *)
Definition server_lifespan {A} (serving : M A) : M A :=
  try_finally serving shutdown_sweep.

Record ToolManager : Type := {
  _tools : dict MCPTool
}.

Record FastMCP : Type := {
  _tool_manager : ToolManager;
  lifespan : M unit -> M unit
}.

(** The loop [for tool in agent.tools.values(): ..._tools[tool.get_name()] = make_tool(tool)]. *)
Fixpoint bind_tools (ts : list Tool) (table : dict MCPTool)
    : Result (dict MCPTool) :=
  match ts with
  | [] => Ok table
  | tool :: ts' =>
      d ← make_tool tool;
      bind_tools ts' (dict_setitem (get_name tool) d table)
  end.

Definition usage : string := newline +:+ "Usage: mcp_server <.yml project file>".

(** [sys_argv] is [sys.argv]. *)
Definition create_mcp_server (sys_argv : list string) : M FastMCP :=
  let argv := drop 1 sys_argv in
  if bool_decide (length argv ≠ 1) then
    print_stderr usage ;;
    sys_exit 1
  else
    project_file_path ←
      match argv !! 0 with
      | Some p => mret p
      | None => raise (IndexError "list index out of range")
      end;
    agent ← _get_create_serena_agent project_file_path;
    let mcp := {| _tool_manager := {| _tools := [] |};
                  lifespan := server_lifespan |} in
    table ← lift (bind_tools (tools agent) (_tools (_tool_manager mcp)));
    mret {| _tool_manager := {| _tools := table |}; lifespan := lifespan mcp |}.

(** [FastMCP.run()], as far as this module sees it: the run loop
    [serving] inside the lifespan.  What the transport of the server
    does to an exception that leaves the lifespan (it may wrap it in an
    exception group) is not part of the model. *)
Definition run (mcp : FastMCP) (serving : M unit) : M unit :=
  lifespan mcp serving.

Definition start_mcp_server (sys_argv : list string) (serving : M unit)
    : M unit :=
  mcp ← create_mcp_server sys_argv;
  run mcp serving.

(** Registry lookups made one after the other. *)
Definition lookup_all (ps : list string) : M unit :=
  for_each ps (fun p => _get_create_serena_agent p ;; mret tt).

(** A run loop: the registry lookups made while serving, and then the
    way the loop ends ([exit_with]). *)
Definition serve (lookups : list string) (exit_with : Result unit) : M unit :=
  lookup_all lookups ;;
  lift exit_with.

(** The tool bound last under [n] in the loop over [ts], if any. *)
Definition last_named (n : string) (ts : list Tool) : option Tool :=
  last (filter (fun t => get_name t = n) ts).

(** ** Well-formed stores

    Every agent sits at the index that is its identity and is the entry
    of the registry for its project file; every entry of the registry
    is such an agent; the keys of the registry are pairwise distinct;
    no two agents share a language server, and every language server of
    an agent exists. *)
Record wf (w : World) : Prop := {
  wf_agents : forall i a, agents w !! i = Some a ->
    agent_id a = i /\
    dict_getitem (project_file_path a) (_SERENA_AGENT_REGISTRY w) = Some a;
  wf_registry : forall p a, dict_getitem p (_SERENA_AGENT_REGISTRY w) = Some a ->
    project_file_path a = p /\ agents w !! agent_id a = Some a;
  wf_keys : NoDup (dict_keys (_SERENA_AGENT_REGISTRY w));
  wf_servers : forall a, a ∈ agents w -> language_server a < length (servers w);
  wf_own_server : NoDup (language_server <$> agents w)
}.

(** What the sweep over the agents [vs] comes to: the agents whose
    [stop()] is called ([reached]), those whose [stop()] returned
    ([completed]), and how the loop ends ([sweep_outcome]). *)
Fixpoint reached (vs : list SerenaAgent) : list SerenaAgent :=
  match vs with
  | [] => []
  | a :: vs' =>
      a :: match stop_fault (language_server a) with
           | Some _ => []
           | None => reached vs'
           end
  end.

Fixpoint completed (vs : list SerenaAgent) : list SerenaAgent :=
  match vs with
  | [] => []
  | a :: vs' =>
      match stop_fault (language_server a) with
      | Some _ => []
      | None => a :: completed vs'
      end
  end.

Fixpoint sweep_outcome (vs : list SerenaAgent) : Result unit :=
  match vs with
  | [] => Ok tt
  | a :: vs' =>
      match stop_fault (language_server a) with
      | Some e => Raise e
      | None => sweep_outcome vs'
      end
  end.

Definition stop_all (ls : list nat) (sv : list LanguageServer)
    : list LanguageServer :=
  foldl (fun sv l => alter (fun _ => {| ls_running := false |}) l sv) sv ls.

(** The store [w'] comes after [w]: objects and registry entries of
    [w] are still there, unchanged but for the state of the servers. *)
Record extends (w w' : World) : Prop := {
  ext_agents : exists more, agents w' = agents w ++ more;
  ext_servers : exists more, servers w' = servers w ++ more;
  ext_registry : forall p a, dict_getitem p (_SERENA_AGENT_REGISTRY w) = Some a ->
    dict_getitem p (_SERENA_AGENT_REGISTRY w') = Some a
}.

End Mcp.

(** ** Example data *)

Definition no_tools : string -> list Tool := fun _ => [].

Definition no_fault : nat -> option Exn := fun _ => None.

(** The [stop()] of the first language server raises. *)
Definition first_server_faulty : nat -> option Exn := fun l =>
  if decide (l = 0) then Some (Exception "stop failed") else None.

Definition agent_a : SerenaAgent :=
  {| agent_id := 0; project_file_path := "proj-a.yml";
     language_server := 0; tools := [] |}.

Definition agent_b : SerenaAgent :=
  {| agent_id := 1; project_file_path := "proj-b.yml";
     language_server := 1; tools := [] |}.

(** The store after the lookups of two project files. *)
Definition two_projects : World :=
  (lookup_all no_tools ["proj-a.yml"; "proj-b.yml"] initial_world).2.

(** A schema derivation that accepts what can be called and nothing
    else, with nothing to say about the signature. *)
Definition callable_metadata : PyObj -> Result unit := fun o =>
  if callable o then Ok tt else Raise (TypeError "not a callable object").

Definition unit_schema : unit -> Result unit := fun _ => Ok tt.

(** A text for the [TypeError] of a call of [apply_ex] that gives the
    argument [k] two values. *)
Definition clash_text (k : string) : string :=
  if decide (k = "self") then
    "Tool.apply_ex() got multiple values for argument 'self'"
  else
    "serena.agent.Tool.apply_ex() got multiple values for keyword argument '"
      +:+ k +:+ "'".

(** A schema derivation as strict as that of the MCP library: besides
    what cannot be called it rejects a function with a parameter whose
    name starts with an underscore. *)
Definition strict_metadata : PyObj -> Result unit := fun o =>
  match o with
  | PyFunction _ params _ =>
      match filter (fun p => String.prefix "_" p = true) params with
      | [] => Ok tt
      | p :: _ =>
          Raise (Exception ("InvalidSignature: Parameter " +:+ p +:+
                            " of apply cannot start with '_'"))
      end
  | _ => Raise (TypeError "not a callable object")
  end.

(** A tool whose [apply] has a parameter called [_x]. *)
Definition underscore_tool : Tool :=
  {| get_name := "private";
     tool_str := "<PrivateTool>";
     class_name := "PrivateTool";
     apply_ex_clash := clash_text;
     apply := Some (PyFunction (Some "Takes a private argument.") ["_x"]
                      (fun _ => Ok "done")) |}.

(** A tool whose [apply] is a plain function with a parameter called
    [self]. *)
Definition self_tool : Tool :=
  {| get_name := "reflect";
     tool_str := "<ReflectTool>";
     class_name := "ReflectTool";
     apply_ex_clash := clash_text;
     apply := Some (PyFunction None ["self"] (fun _ => Ok "done")) |}.

(** The names that the call of [apply_ex] in the thunk binds itself. *)
Definition reserved_names : list string :=
  ["self"; "log_call"; "catch_exceptions"].

(** Keyword arguments that match the signature of a function with the
    parameters [params]: every name is given once and is the name of a
    parameter. *)
Definition well_typed (params : list string) (kwargs : Kwargs) : Prop :=
  NoDup (dict_keys kwargs) /\ forall k, k ∈ dict_keys kwargs -> k ∈ params.

(** A tool whose [apply] always raises. *)
Definition failing_tool : Tool :=
  {| get_name := "find_symbol";
     tool_str := "<FindSymbolTool>";
     class_name := "FindSymbolTool";
     apply_ex_clash := clash_text;
     apply := Some (PyFunction (Some "Finds a symbol.") ["name"]
                      (fun _ => Raise (Exception "no such symbol"))) |}.

(** A tool without documentation whose [apply] has a parameter called
    [log_call]. *)
Definition log_call_tool : Tool :=
  {| get_name := "set_logging";
     tool_str := "<SetLoggingTool>";
     class_name := "SetLoggingTool";
     apply_ex_clash := clash_text;
     apply := Some (PyFunction None ["log_call"] (fun _ => Ok "done")) |}.

(** A tool whose attribute [apply] is [None]. *)
Definition broken_tool : Tool :=
  {| get_name := "broken"; tool_str := "<BrokenTool>";
     class_name := "BrokenTool"; apply_ex_clash := clash_text;
     apply := Some PyNone |}.

Definition one_tool : string -> list Tool := fun _ => [failing_tool].

Definition broken_tools : string -> list Tool :=
  fun _ => [failing_tool; broken_tool].

(** The descriptor of [failing_tool] under [callable_metadata]. *)
Definition failing_tool_descriptor : @MCPTool unit unit :=
  {| fn := execute_fn failing_tool;
     name := "find_symbol";
     description := "Finds a symbol.";
     parameters := tt;
     fn_metadata := tt;
     is_async := false;
     context_kwarg := None |}.

(** The agent of [proj-a.yml] with the tools [ts], and the store after
    its lookup in the initial store. *)
Definition agent_with (ts : list Tool) : SerenaAgent :=
  {| agent_id := 0; project_file_path := "proj-a.yml";
     language_server := 0; tools := ts |}.

Definition one_project (ts : list Tool) : World :=
  (_get_create_serena_agent (fun _ => ts) "proj-a.yml" initial_world).2.

(** ** Logging ([configure_logging])

    The root logger of [logging]: its level and its handlers, each a
    [StreamHandler] with the stream it writes to and its formatter. *)

Inductive Stream : Type := Stdout | Stderr.

Inductive LogLevel : Type := NOTSET | DEBUG | INFO | WARNING | ERROR | CRITICAL.

Record StreamHandler : Type := {
  stream : Stream;
  formatter : option string
}.

Record RootLogger : Type := {
  level : LogLevel;
  handlers : list StreamHandler
}.

Definition LOG_FORMAT : string :=
  "%(levelname)-5s %(asctime)-15s %(name)s:%(funcName)s:%(lineno)d - %(message)s".

Definition LOG_LEVEL : LogLevel := INFO.

(** [Logger.root.setLevel(lvl)] *)
Definition setLevel (lvl : LogLevel) (root : RootLogger) : RootLogger :=
  {| level := lvl; handlers := handlers root |}.

(** [Logger.root.addHandler(h)] for a handler object just made: it is
    not among the handlers yet, so it is appended. *)
Definition addHandler (h : StreamHandler) (root : RootLogger) : RootLogger :=
  {| level := level root; handlers := handlers root ++ [h] |}.

(** [configure_logging], called with any positional arguments [args]
    and keyword arguments [kwargs]. *)
Definition configure_logging (args : list PyVal) (kwargs : Kwargs)
    (root : RootLogger) : RootLogger :=
  let root := setLevel LOG_LEVEL root in
  let handler := {| stream := Stderr; formatter := None |} in
  let handler := {| stream := stream handler; formatter := Some LOG_FORMAT |} in
  addHandler handler root.

(** Calls of [configure_logging], one after the other, each with its
    positional and keyword arguments. *)
Fixpoint configure_logging_calls (calls : list (list PyVal * Kwargs))
    (root : RootLogger) : RootLogger :=
  match calls with
  | [] => root
  | (args, kwargs) :: calls' =>
      configure_logging_calls calls' (configure_logging args kwargs root)
  end.

(** ** Stores of a process that is serving

    Every language server of the store belongs to an agent, and no
    [stop()] has been called yet. *)
Record serving_store (w : World) : Prop := {
  serving_wf : wf w;
  serving_owned : forall l, l < length (servers w) ->
    exists a, a ∈ agents w /\ language_server a = l;
  serving_no_stop : forall l, stop_calls l (trace w) = 0
}.

(** * Properties *)

(** ** Running effectful code *)

Lemma bind_Ok {A B} (m : M A) (f : A -> M B) w a w' :
  m w = (Ok a, w') -> (m ≫= f) w = f a w'.
Proof. intros H. unfold mbind, M_bind. by rewrite H. Qed.

Lemma bind_Raise {A B} (m : M A) (f : A -> M B) w e w' :
  m w = (Raise e, w') -> (m ≫= f) w = (Raise e, w').
Proof. intros H. unfold mbind, M_bind. by rewrite H. Qed.

Lemma for_each_cons {A} (x : A) xs (body : A -> M unit) :
  for_each (x :: xs) body = (body x ;; for_each xs body).
Proof. reflexivity. Qed.

(** ** Dictionaries *)

Section DictFacts.
Context {V : Type}.
Implicit Types (d : dict V) (k : string) (v : V).

Lemma dict_getitem_setitem_eq k v d :
  dict_getitem k (dict_setitem k v d) = Some v.
Proof.
  induction d as [|[k' v'] d IH]; simpl.
  - by rewrite decide_True.
  - destruct (decide (k' = k)) as [->|Hne]; simpl.
    + by rewrite decide_True.
    + by rewrite decide_False.
Qed.

Lemma dict_getitem_setitem_ne k k' v d :
  k ≠ k' -> dict_getitem k' (dict_setitem k v d) = dict_getitem k' d.
Proof.
  intros Hne. induction d as [|[k0 v0] d IH]; simpl.
  - by rewrite decide_False.
  - destruct (decide (k0 = k)) as [->|Hk0]; simpl.
    + by rewrite !decide_False.
    + by rewrite IH.
Qed.

Lemma dict_getitem_None k d :
  dict_getitem k d = None <-> k ∉ dict_keys d.
Proof.
  unfold dict_keys. induction d as [|[k' v'] d IH]; simpl.
  - split; [intros _; apply not_elem_of_nil | done].
  - rewrite not_elem_of_cons. destruct (decide (k' = k)) as [->|Hne].
    + split; [done | by intros [? _]].
    + rewrite IH. split; [intros ?; split; [congruence | done] | by intros [_ ?]].
Qed.

Lemma dict_setitem_absent k v d :
  dict_getitem k d = None -> dict_setitem k v d = d ++ [(k, v)].
Proof.
  induction d as [|[k' v'] d IH]; simpl; [done|].
  destruct (decide (k' = k)); [done|]. intros H. by rewrite IH.
Qed.

Lemma dict_keys_setitem_present k v d :
  is_Some (dict_getitem k d) -> dict_keys (dict_setitem k v d) = dict_keys d.
Proof.
  unfold dict_keys. induction d as [|[k' v'] d IH]; simpl.
  - by intros [? ?].
  - destruct (decide (k' = k)); csimpl; [done|]. intros H. by rewrite IH.
Qed.

Lemma dict_setitem_keys_NoDup k v d :
  NoDup (dict_keys d) -> NoDup (dict_keys (dict_setitem k v d)).
Proof.
  intros Hnd. destruct (dict_getitem k d) as [v0|] eqn:Hget.
  - by rewrite dict_keys_setitem_present.
  - rewrite dict_setitem_absent by done. unfold dict_keys in *.
    rewrite fmap_app. simpl. apply NoDup_app. split; [done|].
    split; [|apply NoDup_singleton].
    intros x Hx Hin. apply list_elem_of_singleton in Hin. subst x.
    by apply dict_getitem_None in Hget.
Qed.

Lemma dict_getitem_elem_of k v d :
  dict_getitem k d = Some v -> (k, v) ∈ d.
Proof.
  induction d as [|[k' v'] d IH]; simpl; [done|].
  destruct (decide (k' = k)) as [->|Hne].
  - intros [= ->]. apply list_elem_of_here.
  - intros H. apply list_elem_of_further. auto.
Qed.

Lemma dict_elem_of_getitem k v d :
  NoDup (dict_keys d) -> (k, v) ∈ d -> dict_getitem k d = Some v.
Proof.
  unfold dict_keys. induction d as [|[k' v'] d IH]; simpl.
  - intros _ H. by apply not_elem_of_nil in H.
  - intros Hnd Hin. apply NoDup_cons in Hnd as [Hk' Hnd].
    apply elem_of_cons in Hin as [Heq|Hin].
    + injection Heq as -> ->. by rewrite decide_True.
    + destruct (decide (k' = k)) as [->|Hne]; [|by apply IH].
      exfalso. apply Hk'. apply list_elem_of_fmap. by exists (k, v).
Qed.

Lemma dict_values_getitem v d :
  NoDup (dict_keys d) ->
  v ∈ dict_values d <-> exists k, dict_getitem k d = Some v.
Proof.
  intros Hnd. unfold dict_values. rewrite list_elem_of_fmap. split.
  - intros [[k v'] [-> Hin]]. exists k. by apply dict_elem_of_getitem.
  - intros [k Hk]. exists (k, v). split; [done|]. by apply dict_getitem_elem_of.
Qed.

Lemma dict_contains_true k d :
  dict_contains k d = true <-> is_Some (dict_getitem k d).
Proof. unfold dict_contains. by rewrite bool_decide_eq_true. Qed.

Lemma dict_contains_false k d :
  dict_contains k d = false <-> dict_getitem k d = None.
Proof.
  unfold dict_contains. rewrite bool_decide_eq_false.
  by rewrite eq_None_not_Some.
Qed.

End DictFacts.

(** ** The agent registry *)

Section RegistryFacts.
Variable project_tools : string -> list Tool.

Abbreviation lookup_agent := (_get_create_serena_agent project_tools).
Abbreviation fresh_agent := (fresh_agent project_tools).

Lemma lookup_agent_reuse p a w :
  dict_getitem p (_SERENA_AGENT_REGISTRY w) = Some a ->
  lookup_agent p w =
    (Ok a,
     {| agents := agents w; servers := servers w;
        _SERENA_AGENT_REGISTRY := _SERENA_AGENT_REGISTRY w;
        trace := trace w ++
          [EvLogInfo ("Reusing existing SerenaAgent for project file: " +:+ p)] |}).
Proof.
  intros Hget.
  assert (Hc : dict_contains p (_SERENA_AGENT_REGISTRY w) = true)
    by (apply dict_contains_true; eauto).
  unfold _get_create_serena_agent, mbind, M_bind, registry_contains,
    registry_getitem, log_info, emit.
  rewrite Hc. simpl. by rewrite Hget.
Qed.

Lemma lookup_agent_fresh p w :
  dict_getitem p (_SERENA_AGENT_REGISTRY w) = None ->
  lookup_agent p w =
    (Ok (fresh_agent p w),
     {| agents := agents w ++ [fresh_agent p w];
        servers := servers w ++ [{| ls_running := true |}];
        _SERENA_AGENT_REGISTRY :=
          dict_setitem p (fresh_agent p w) (_SERENA_AGENT_REGISTRY w);
        trace := (trace w ++
          [EvLogInfo ("Creating new SerenaAgent for project file: " +:+ p)]) ++
          [EvBackendStarted (length (servers w))] |}).
Proof.
  intros Hget.
  assert (Hc : dict_contains p (_SERENA_AGENT_REGISTRY w) = false)
    by (by apply dict_contains_false).
  unfold _get_create_serena_agent, mbind, M_bind, registry_contains,
    registry_getitem, registry_setitem, SerenaAgent_init, log_info, emit.
  rewrite Hc. simpl. by rewrite dict_getitem_setitem_eq.
Qed.

Lemma wf_initial : wf initial_world.
Proof.
  split; simpl; [done | done | apply NoDup_nil_2 | | apply NoDup_nil_2].
  intros a H. by apply elem_of_nil in H.
Qed.

(** Well-formedness does not look at the trace. *)
Lemma wf_trace w evs :
  wf w ->
  wf {| agents := agents w; servers := servers w;
        _SERENA_AGENT_REGISTRY := _SERENA_AGENT_REGISTRY w; trace := evs |}.
Proof. intros [H1 H2 H3 H4 H5]. by split. Qed.

Lemma wf_construct p w evs :
  wf w ->
  dict_getitem p (_SERENA_AGENT_REGISTRY w) = None ->
  wf {| agents := agents w ++ [fresh_agent p w];
        servers := servers w ++ [{| ls_running := true |}];
        _SERENA_AGENT_REGISTRY :=
          dict_setitem p (fresh_agent p w) (_SERENA_AGENT_REGISTRY w);
        trace := evs |}.
Proof.
  intros [Hag Hreg Hkeys Hsrv Hown] Hget. split; simpl.
  - intros i a Hi. apply lookup_app_Some in Hi as [Hi|[Hlen Hi]].
    + destruct (Hag _ _ Hi) as [Hid Hr]. split; [done|].
      rewrite dict_getitem_setitem_ne; [done|]. intros ->. congruence.
    + apply list_lookup_singleton_Some in Hi as [Hi <-]. simpl. split; [lia|].
      apply dict_getitem_setitem_eq.
  - intros q a Hq. destruct (decide (p = q)) as [<-|Hne].
    + rewrite dict_getitem_setitem_eq in Hq. injection Hq as <-. simpl.
      split; [done|]. rewrite lookup_app_r by lia.
      by rewrite Nat.sub_diag.
    + rewrite dict_getitem_setitem_ne in Hq by done.
      destruct (Hreg _ _ Hq) as [Hp Ha]. split; [done|].
      by apply lookup_app_l_Some.
  - by apply dict_setitem_keys_NoDup.
  - intros a Ha. rewrite length_app. simpl.
    apply elem_of_app in Ha as [Ha|Ha].
    + specialize (Hsrv _ Ha). lia.
    + apply list_elem_of_singleton in Ha as ->. simpl. lia.
  - rewrite fmap_app. apply NoDup_app. split; [done|].
    split; [|apply NoDup_singleton].
    intros l Hl Hin. apply list_elem_of_singleton in Hin. simpl in Hin. subst l.
    apply list_elem_of_fmap in Hl as [a [Heq Ha]].
    specialize (Hsrv _ Ha). lia.
Qed.

(** A lookup always returns an agent, keeps the store well formed and
    leaves the agent as the entry of its project file. *)
Lemma lookup_agent_wf p w :
  wf w ->
  exists a w', lookup_agent p w = (Ok a, w') /\ wf w' /\
    dict_getitem p (_SERENA_AGENT_REGISTRY w') = Some a.
Proof.
  intros Hwf. destruct (dict_getitem p (_SERENA_AGENT_REGISTRY w)) as [a|] eqn:Hget.
  - eexists _, _. split; [by apply lookup_agent_reuse|].
    split; [by apply wf_trace | done].
  - eexists _, _. split; [by apply lookup_agent_fresh|].
    split; [by apply wf_construct | simpl; apply dict_getitem_setitem_eq].
Qed.

Lemma extends_refl w : extends w w.
Proof. split; [by exists []; rewrite app_nil_r .. | done]. Qed.

Lemma extends_trans w1 w2 w3 : extends w1 w2 -> extends w2 w3 -> extends w1 w3.
Proof.
  intros [[m1 H1] [n1 H2] H3] [[m2 H4] [n2 H5] H6]. split.
  - exists (m1 ++ m2). by rewrite H4, H1, app_assoc.
  - exists (n1 ++ n2). by rewrite H5, H2, app_assoc.
  - auto.
Qed.

Lemma lookup_agent_extends p w : extends w (lookup_agent p w).2.
Proof.
  destruct (dict_getitem p (_SERENA_AGENT_REGISTRY w)) as [a|] eqn:Hget.
  - rewrite (lookup_agent_reuse _ _ _ Hget). simpl.
    split; simpl; [by exists []; rewrite app_nil_r .. | done].
  - rewrite (lookup_agent_fresh _ _ Hget). simpl.
    split; simpl; [by eexists .. |].
    intros q a Hq. rewrite dict_getitem_setitem_ne; [done|]. congruence.
Qed.

Lemma lookup_all_step p ps w :
  lookup_all project_tools (p :: ps) w =
    lookup_all project_tools ps (lookup_agent p w).2.
Proof.
  assert (exists a w1, lookup_agent p w = (Ok a, w1)) as (a & w1 & Hrun).
  { destruct (dict_getitem p (_SERENA_AGENT_REGISTRY w)) as [a|] eqn:Hget;
      eexists _, _; [by apply lookup_agent_reuse | by apply lookup_agent_fresh]. }
  rewrite Hrun. unfold lookup_all. rewrite for_each_cons.
  rewrite (bind_Ok _ _ w tt w1); [done|].
  by rewrite (bind_Ok _ _ w a w1 Hrun).
Qed.

(** A sequence of lookups runs to its end, in a well-formed store that
    comes after the one it started from. *)
Lemma lookup_all_spec ps w :
  wf w ->
  exists w', lookup_all project_tools ps w = (Ok tt, w') /\ wf w' /\ extends w w'.
Proof.
  revert w. induction ps as [|p ps IH]; intros w Hwf.
  - exists w. split; [done|]. split; [done | apply extends_refl].
  - destruct (lookup_agent_wf p w Hwf) as (a & w1 & Hrun & Hwf1 & _).
    destruct (IH w1 Hwf1) as (w' & Hrest & Hwf' & Hext).
    exists w'. rewrite lookup_all_step, Hrun. simpl.
    split; [done|]. split; [done|].
    eapply extends_trans; [|exact Hext].
    pose proof (lookup_agent_extends p w) as He. by rewrite Hrun in He.
Qed.

Lemma wf_agents_NoDup w : wf w -> NoDup (agents w).
Proof. intros Hwf. eapply NoDup_fmap_1, wf_own_server, Hwf. Qed.

Lemma NoDup_all_equal {A} (l : list A) :
  NoDup l -> (forall x y, x ∈ l -> y ∈ l -> x = y) -> length l <= 1.
Proof.
  intros Hnd Hall. destruct l as [|y [|z l]]; simpl; [lia | lia |].
  exfalso. apply NoDup_cons in Hnd as [Hy _]. apply Hy.
  rewrite (Hall y z).
  - apply list_elem_of_here.
  - apply list_elem_of_here.
  - apply list_elem_of_further, list_elem_of_here.
Qed.

(** In a well-formed store no project file has two agents, and a
    registered one has exactly one. *)
Lemma constructions_le_1 p w : wf w -> constructions p w <= 1.
Proof.
  intros Hwf. unfold constructions. apply NoDup_all_equal.
  - apply NoDup_filter. by apply wf_agents_NoDup.
  - intros a b Ha Hb.
    apply list_elem_of_filter in Ha as [Hpa Ha], Hb as [Hpb Hb].
    apply list_elem_of_lookup in Ha as [i Hi], Hb as [j Hj].
    destruct (wf_agents _ Hwf _ _ Hi) as [_ Hra].
    destruct (wf_agents _ Hwf _ _ Hj) as [_ Hrb].
    rewrite Hpa in Hra. rewrite Hpb in Hrb. congruence.
Qed.

Lemma constructions_registered p a w :
  wf w -> dict_getitem p (_SERENA_AGENT_REGISTRY w) = Some a ->
  constructions p w = 1.
Proof.
  intros Hwf Hget. pose proof (constructions_le_1 p w Hwf) as Hle.
  destruct (wf_registry _ Hwf _ _ Hget) as [Hp Ha].
  assert (Hin : a ∈ filter (fun a => project_file_path a = p) (agents w)).
  { apply list_elem_of_filter. split; [done|]. by eapply list_elem_of_lookup_2. }
  unfold constructions in *.
  destruct (filter _ (agents w)); simpl in *; [by apply elem_of_nil in Hin | lia].
Qed.

Lemma lookup_agent_run p w :
  wf w ->
  exists a w', lookup_agent p w = (Ok a, w') /\ wf w' /\ extends w w' /\
    dict_getitem p (_SERENA_AGENT_REGISTRY w') = Some a.
Proof.
  intros Hwf. destruct (lookup_agent_wf p w Hwf) as (a & w' & Hrun & Hwf' & Hget).
  exists a, w'. split; [done|]. split; [done|]. split; [|done].
  pose proof (lookup_agent_extends p w) as He. by rewrite Hrun in He.
Qed.

(** Two entries of the registry under different project files are
    different objects with different language servers. *)
Lemma wf_entries_distinct p q a b w :
  wf w -> p ≠ q ->
  dict_getitem p (_SERENA_AGENT_REGISTRY w) = Some a ->
  dict_getitem q (_SERENA_AGENT_REGISTRY w) = Some b ->
  agent_id a ≠ agent_id b /\ language_server a ≠ language_server b.
Proof.
  intros Hwf Hne Ha Hb.
  destruct (wf_registry _ Hwf _ _ Ha) as [Hpa Hia].
  destruct (wf_registry _ Hwf _ _ Hb) as [Hpb Hib].
  assert (Hid : agent_id a ≠ agent_id b).
  { intros Heq. rewrite Heq in Hia. congruence. }
  split; [done|]. intros Heq. apply Hid.
  eapply (NoDup_lookup (language_server <$> agents w)).
  - by apply wf_own_server.
  - rewrite list_lookup_fmap, Hia. reflexivity.
  - rewrite list_lookup_fmap, Hib. simpl. by rewrite Heq.
Qed.

(** C1: looking the same project file up again, after any lookups in
    between, returns the very agent of the first lookup, constructs no
    agent and starts no backend: the store changes by one log record
    only, and exactly one agent has been constructed for the project
    file.  A first lookup of a project file that has no entry
    constructs a new agent and inserts it. *)
Theorem registry_lookup_constructs_once p (between : list string) w :
  wf w ->
  exists a w1 w2 w3,
    lookup_agent p w = (Ok a, w1) /\
    (dict_getitem p (_SERENA_AGENT_REGISTRY w) = None ->
       a = fresh_agent p w /\
       agents w1 = agents w ++ [a] /\
       _SERENA_AGENT_REGISTRY w1 = dict_setitem p a (_SERENA_AGENT_REGISTRY w)) /\
    lookup_all project_tools between w1 = (Ok tt, w2) /\
    lookup_agent p w2 = (Ok a, w3) /\
    agents w3 = agents w2 /\
    servers w3 = servers w2 /\
    _SERENA_AGENT_REGISTRY w3 = _SERENA_AGENT_REGISTRY w2 /\
    trace w3 = trace w2 ++
      [EvLogInfo ("Reusing existing SerenaAgent for project file: " +:+ p)] /\
    constructions p w3 = 1.
Proof.
  intros Hwf.
  destruct (lookup_agent_run p w Hwf) as (a & w1 & Hrun & Hwf1 & _ & Hget1).
  destruct (lookup_all_spec between w1 Hwf1) as (w2 & Hall & Hwf2 & Hext).
  pose proof (ext_registry _ _ Hext _ _ Hget1) as Hget2.
  eexists a, w1, w2, _. split; [done|]. split.
  { intros Hnone. rewrite (lookup_agent_fresh _ _ Hnone) in Hrun.
    injection Hrun as <- <-. by simpl. }
  split; [done|]. split; [by apply lookup_agent_reuse|]. simpl.
  repeat split; try done.
  change (constructions p w2 = 1). by eapply constructions_registered.
Qed.

(** C9: lookups of two different project files return two different
    agent objects with two different language servers; an agent that a
    lookup had to construct got its language server started. *)
Theorem distinct_projects_distinct_agents p q (between : list string) w :
  wf w -> p ≠ q ->
  exists a b w1 w2 w3,
    lookup_agent p w = (Ok a, w1) /\
    lookup_all project_tools between w1 = (Ok tt, w2) /\
    lookup_agent q w2 = (Ok b, w3) /\
    agent_id a ≠ agent_id b /\
    language_server a ≠ language_server b /\
    (dict_getitem p (_SERENA_AGENT_REGISTRY w) = None ->
       EvBackendStarted (language_server a) ∈ trace w1 /\
       servers w3 !! language_server a = Some {| ls_running := true |}) /\
    (dict_getitem q (_SERENA_AGENT_REGISTRY w2) = None ->
       EvBackendStarted (language_server b) ∈ trace w3 /\
       servers w3 !! language_server b = Some {| ls_running := true |}).
Proof.
  intros Hwf Hne.
  destruct (lookup_agent_run p w Hwf) as (a & w1 & Hrun1 & Hwf1 & _ & Hget1).
  destruct (lookup_all_spec between w1 Hwf1) as (w2 & Hall & Hwf2 & Hext12).
  destruct (lookup_agent_run q w2 Hwf2) as (b & w3 & Hrun3 & Hwf3 & Hext23 & Hget3).
  pose proof (extends_trans _ _ _ Hext12 Hext23) as Hext13.
  pose proof (ext_registry _ _ Hext13 _ _ Hget1) as Hget1'.
  destruct (wf_entries_distinct p q a b w3 Hwf3 Hne Hget1' Hget3) as [Hid Hls].
  exists a, b, w1, w2, w3.
  split; [done|]. split; [done|]. split; [done|]. split; [done|]. split; [done|].
  split.
  - intros Hnone. destruct (ext_servers _ _ Hext13) as [more Hmore].
    rewrite (lookup_agent_fresh _ _ Hnone) in Hrun1. injection Hrun1 as <- <-.
    simpl in *. split.
    + apply elem_of_app. right. apply list_elem_of_here.
    + rewrite Hmore. apply lookup_app_l_Some.
      rewrite lookup_app_r by lia. by rewrite Nat.sub_diag.
  - intros Hnone.
    rewrite (lookup_agent_fresh _ _ Hnone) in Hrun3. injection Hrun3 as <- <-.
    simpl. split.
    + apply elem_of_app. right. apply list_elem_of_here.
    + rewrite lookup_app_r by lia. by rewrite Nat.sub_diag.
Qed.

End RegistryFacts.

Lemma registry_lookup_constructs_once_witness :
  wf initial_world /\
  exists a w1 w2 w3,
    _get_create_serena_agent (fun _ => []) "proj-a.yml" initial_world = (Ok a, w1) /\
    (dict_getitem "proj-a.yml" (_SERENA_AGENT_REGISTRY initial_world) = None ->
       a = fresh_agent (fun _ => []) "proj-a.yml" initial_world /\
       agents w1 = agents initial_world ++ [a] /\
       _SERENA_AGENT_REGISTRY w1 =
         dict_setitem "proj-a.yml" a (_SERENA_AGENT_REGISTRY initial_world)) /\
    lookup_all (fun _ => []) ["proj-b.yml"; "proj-a.yml"] w1 = (Ok tt, w2) /\
    _get_create_serena_agent (fun _ => []) "proj-a.yml" w2 = (Ok a, w3) /\
    agents w3 = agents w2 /\
    servers w3 = servers w2 /\
    _SERENA_AGENT_REGISTRY w3 = _SERENA_AGENT_REGISTRY w2 /\
    trace w3 = trace w2 ++
      [EvLogInfo ("Reusing existing SerenaAgent for project file: " +:+ "proj-a.yml")] /\
    constructions "proj-a.yml" w3 = 1.
Proof.
  split; [apply wf_initial|].
  apply (registry_lookup_constructs_once (fun _ => []) "proj-a.yml"
           ["proj-b.yml"; "proj-a.yml"] initial_world).
  apply wf_initial.
Defined.

Lemma distinct_projects_distinct_agents_witness :
  wf initial_world /\ "proj-a.yml" ≠ "proj-b.yml" /\
  exists a b w1 w2 w3,
    _get_create_serena_agent (fun _ => []) "proj-a.yml" initial_world = (Ok a, w1) /\
    lookup_all (fun _ => []) [] w1 = (Ok tt, w2) /\
    _get_create_serena_agent (fun _ => []) "proj-b.yml" w2 = (Ok b, w3) /\
    agent_id a ≠ agent_id b /\
    language_server a ≠ language_server b /\
    (dict_getitem "proj-a.yml" (_SERENA_AGENT_REGISTRY initial_world) = None ->
       EvBackendStarted (language_server a) ∈ trace w1 /\
       servers w3 !! language_server a = Some {| ls_running := true |}) /\
    (dict_getitem "proj-b.yml" (_SERENA_AGENT_REGISTRY w2) = None ->
       EvBackendStarted (language_server b) ∈ trace w3 /\
       servers w3 !! language_server b = Some {| ls_running := true |}).
Proof.
  split; [apply wf_initial|]. split; [done|].
  apply (distinct_projects_distinct_agents (fun _ => []) "proj-a.yml" "proj-b.yml"
           [] initial_world); [apply wf_initial | done].
Defined.

(** ** The shutdown sweep *)

Section ShutdownFacts.
Variable project_tools : string -> list Tool.
Variable stop_fault : nat -> option Exn.

Abbreviation stop_each vs :=
  (for_each vs (fun agent => language_server_stop stop_fault (language_server agent))).

Lemma language_server_stop_fault l e w :
  stop_fault l = Some e ->
  language_server_stop stop_fault l w =
    (Raise e,
     {| agents := agents w; servers := servers w;
        _SERENA_AGENT_REGISTRY := _SERENA_AGENT_REGISTRY w;
        trace := trace w ++ [EvStopInvoked l] |}).
Proof.
  intros Hf. unfold language_server_stop, mbind, M_bind, emit. simpl.
  by rewrite Hf.
Qed.

Lemma language_server_stop_return l w :
  stop_fault l = None ->
  language_server_stop stop_fault l w =
    (Ok tt,
     {| agents := agents w;
        servers := alter (fun _ => {| ls_running := false |}) l (servers w);
        _SERENA_AGENT_REGISTRY := _SERENA_AGENT_REGISTRY w;
        trace := trace w ++ [EvStopInvoked l] |}).
Proof.
  intros Hf. unfold language_server_stop, mbind, M_bind, emit. simpl.
  by rewrite Hf.
Qed.

(** The loop of the sweep, run over the agents [vs]. *)
Lemma stop_each_run vs w :
  stop_each vs w =
    (sweep_outcome stop_fault vs,
     {| agents := agents w;
        servers := stop_all (language_server <$> completed stop_fault vs) (servers w);
        _SERENA_AGENT_REGISTRY := _SERENA_AGENT_REGISTRY w;
        trace := trace w ++
          (EvStopInvoked ∘ language_server <$> reached stop_fault vs) |}).
Proof.
  revert w. induction vs as [|a vs IH]; intros w.
  - simpl. rewrite app_nil_r. by destruct w.
  - rewrite for_each_cons. simpl.
    destruct (stop_fault (language_server a)) as [e|] eqn:Hf.
    + erewrite bind_Raise; [reflexivity|].
      by apply language_server_stop_fault.
    + erewrite bind_Ok; [|by apply language_server_stop_return].
      rewrite IH. simpl. by rewrite <- app_assoc.
Qed.

Lemma shutdown_sweep_run w :
  shutdown_sweep stop_fault w =
    stop_each (dict_values (_SERENA_AGENT_REGISTRY w)) w.
Proof. reflexivity. Qed.

Lemma no_fault_reached vs :
  (forall a, a ∈ vs -> stop_fault (language_server a) = None) ->
  reached stop_fault vs = vs /\ completed stop_fault vs = vs /\
  sweep_outcome stop_fault vs = Ok tt.
Proof.
  induction vs as [|a vs IH]; intros Hno; simpl; [done|].
  rewrite (Hno a) by apply list_elem_of_here.
  destruct IH as (-> & -> & ->); [|done].
  intros b Hb. apply Hno. by apply list_elem_of_further.
Qed.

Lemma first_fault_reached pre a post e :
  (forall b, b ∈ pre -> stop_fault (language_server b) = None) ->
  stop_fault (language_server a) = Some e ->
  reached stop_fault (pre ++ a :: post) = pre ++ [a] /\
  completed stop_fault (pre ++ a :: post) = pre /\
  sweep_outcome stop_fault (pre ++ a :: post) = Raise e.
Proof.
  intros Hpre Ha. induction pre as [|b pre IH]; simpl.
  - by rewrite Ha.
  - rewrite (Hpre b) by apply list_elem_of_here.
    destruct IH as (-> & -> & ->); [|done].
    intros c Hc. apply Hpre. by apply list_elem_of_further.
Qed.

Lemma stop_calls_absent l (ls : list nat) :
  l ∉ ls -> stop_calls l (EvStopInvoked <$> ls) = 0.
Proof.
  unfold stop_calls. induction ls as [|l' ls IH]; [done|].
  rewrite not_elem_of_cons. intros [Hne Hnot]. csimpl.
  rewrite filter_cons_False by congruence. auto.
Qed.

Lemma stop_calls_once l (ls : list nat) :
  NoDup ls -> l ∈ ls -> stop_calls l (EvStopInvoked <$> ls) = 1.
Proof.
  unfold stop_calls. induction ls as [|l' ls IH]; intros Hnd Hin.
  - by apply elem_of_nil in Hin.
  - apply NoDup_cons in Hnd as [Hl' Hnd]. csimpl.
    apply elem_of_cons in Hin as [->|Hin].
    + rewrite filter_cons_True by done. simpl.
      f_equal. by apply stop_calls_absent.
    + rewrite filter_cons_False; [by apply IH|].
      intros [= ->]. done.
Qed.

(** No two entries of the registry share a language server. *)
Lemma wf_values_own_server w :
  wf w -> NoDup (language_server <$> dict_values (_SERENA_AGENT_REGISTRY w)).
Proof.
  intros Hwf. pose proof (wf_keys _ Hwf) as Hkeys.
  unfold dict_values. apply NoDup_fmap_2_strong.
  - intros a b Ha Hb Heq.
    apply (dict_values_getitem _ _ Hkeys) in Ha as [p Hp], Hb as [q Hq].
    destruct (decide (p = q)) as [->|Hne]; [congruence|].
    by destruct (wf_entries_distinct p q a b w Hwf Hne Hp Hq) as [_ ?].
  - apply NoDup_fmap_2_strong; [|eapply NoDup_fmap_1, Hkeys].
    intros [p a] [q b] Ha Hb Heq. simpl in Heq. subst b.
    apply (dict_elem_of_getitem _ _ _ Hkeys) in Ha, Hb.
    destruct (wf_registry _ Hwf _ _ Ha) as [<- _].
    by destruct (wf_registry _ Hwf _ _ Hb) as [<- _].
Qed.

Lemma stop_all_lookup (ls : list nat) sv l :
  stop_all ls sv !! l =
    if decide (l ∈ ls) then (fun _ => {| ls_running := false |}) <$> sv !! l
    else sv !! l.
Proof.
  revert sv. induction ls as [|l' ls IH]; intros sv.
  - destruct (decide (l ∈ [])) as [H|_]; [by apply elem_of_nil in H | done].
  - change (stop_all (l' :: ls) sv)
      with (stop_all ls (alter (fun _ => {| ls_running := false |}) l' sv)).
    rewrite IH, list_lookup_alter.
    destruct (decide (l ∈ l' :: ls)) as [Hin'|Hnot'].
    + destruct (decide (l ∈ ls)) as [Hin|Hnot].
      * destruct (decide (l' = l)) as [->|?]; [|done]. by destruct (sv !! l).
      * apply elem_of_cons in Hin' as [->|?]; [|done]. by rewrite decide_True.
    + apply not_elem_of_cons in Hnot' as [Hne Hnot].
      rewrite (decide_False (P := l ∈ ls)) by done.
      by rewrite decide_False.
Qed.

Lemma sweep_outcome_Ok vs :
  sweep_outcome stop_fault vs = Ok tt -> completed stop_fault vs = vs.
Proof.
  induction vs as [|a vs IH]; simpl; [done|].
  destruct (stop_fault (language_server a)); [done|]. intros H. by rewrite IH.
Qed.

Lemma serve_run lookups exit_with w :
  wf w ->
  exists w1, serve project_tools lookups exit_with w = (exit_with, w1) /\
    wf w1 /\ extends w w1 /\
    forall p, p ∈ lookups -> is_Some (dict_getitem p (_SERENA_AGENT_REGISTRY w1)).
Proof.
  intros Hwf. unfold serve.
  assert (exists w1, lookup_all project_tools lookups w = (Ok tt, w1) /\
    wf w1 /\ extends w w1 /\
    forall p, p ∈ lookups -> is_Some (dict_getitem p (_SERENA_AGENT_REGISTRY w1)))
    as (w1 & Hrun & Hwf1 & Hext & Hall).
  { clear exit_with. revert w Hwf. induction lookups as [|q qs IH]; intros w Hwf.
    - exists w. split; [done|]. split; [done|]. split; [apply extends_refl|].
      intros p Hp. by apply elem_of_nil in Hp.
    - destruct (lookup_agent_run project_tools q w Hwf)
        as (a & w1 & Hrun & Hwf1 & Hext & Hget).
      destruct (IH w1 Hwf1) as (w2 & Hrest & Hwf2 & Hext2 & Hall).
      exists w2. rewrite lookup_all_step, Hrun. simpl.
      split; [done|]. split; [done|].
      split; [by eapply extends_trans|].
      intros p Hp. apply elem_of_cons in Hp as [->|Hp]; [|by apply Hall].
      exists a. by apply (ext_registry _ _ Hext2). }
  exists w1. split; [|done].
  by erewrite bind_Ok by exact Hrun.
Qed.

(** C3, as the code has it: when the run loop ends, however it ends,
    and every [stop()] of the sweep returns, [stop()] is called exactly
    once on the language server of every agent that is in the registry
    at that moment, in the order of the registry, and on no other; the
    agents looked up while serving are among them. *)
Theorem lifespan_stops_current_registry lookups exit_with w0 :
  wf w0 ->
  exists w1,
    serve project_tools lookups exit_with w0 = (exit_with, w1) /\
    (forall p, p ∈ lookups -> is_Some (dict_getitem p (_SERENA_AGENT_REGISTRY w1))) /\
    ((forall a, a ∈ dict_values (_SERENA_AGENT_REGISTRY w1) ->
        stop_fault (language_server a) = None) ->
     exists w2 evs,
       server_lifespan stop_fault (serve project_tools lookups exit_with) w0
         = (exit_with, w2) /\
       trace w2 = trace w1 ++ evs /\
       evs = (EvStopInvoked ∘ language_server <$>
                dict_values (_SERENA_AGENT_REGISTRY w1)) /\
       (forall a, a ∈ dict_values (_SERENA_AGENT_REGISTRY w1) ->
          stop_calls (language_server a) evs = 1) /\
       (forall l, l ∉ language_server <$> dict_values (_SERENA_AGENT_REGISTRY w1) ->
          stop_calls l evs = 0)).
Proof.
  intros Hwf0.
  destruct (serve_run lookups exit_with w0 Hwf0) as (w1 & Hrun & Hwf1 & _ & Hall).
  exists w1. split; [done|]. split; [done|]. intros Hno.
  destruct (no_fault_reached _ Hno) as (Hreached & Hcompleted & Hout).
  eexists _, _. split.
  { unfold server_lifespan, try_finally. rewrite Hrun.
    rewrite shutdown_sweep_run, stop_each_run, Hout. reflexivity. }
  simpl. rewrite Hreached. split; [done|]. split; [done|].
  rewrite list_fmap_compose. split.
  - intros a Ha. apply stop_calls_once.
    + by apply wf_values_own_server.
    + by apply list_elem_of_fmap_2.
  - intros l Hl. by apply stop_calls_absent.
Qed.

(** C4, as the code has it: a [stop()] that raises ends the sweep.  The
    language servers of the agents before it in the registry, and its
    own, have had their [stop()] called once; the exception leaves the
    sweep, and [stop()] is not called for the agents after it. *)
Theorem shutdown_sweep_ends_at_first_fault w pre a post e :
  wf w ->
  dict_values (_SERENA_AGENT_REGISTRY w) = pre ++ a :: post ->
  (forall b, b ∈ pre -> stop_fault (language_server b) = None) ->
  stop_fault (language_server a) = Some e ->
  exists w' evs,
    shutdown_sweep stop_fault w = (Raise e, w') /\
    trace w' = trace w ++ evs /\
    evs = (EvStopInvoked ∘ language_server <$> pre ++ [a]) /\
    (forall b, b ∈ pre ++ [a] -> stop_calls (language_server b) evs = 1) /\
    (forall b, b ∈ post -> stop_calls (language_server b) evs = 0).
Proof.
  intros Hwf Hvs Hpre Ha.
  destruct (first_fault_reached pre a post e Hpre Ha) as (Hreached & _ & Hout).
  pose proof (wf_values_own_server w Hwf) as Hnd.
  rewrite Hvs in Hnd.
  replace (pre ++ a :: post) with ((pre ++ [a]) ++ post) in Hnd
    by (by rewrite <- app_assoc).
  rewrite fmap_app in Hnd. apply NoDup_app in Hnd as (Hnd1 & Hdisj & _).
  eexists _, _. split.
  { rewrite shutdown_sweep_run, stop_each_run, Hvs, Hout. reflexivity. }
  simpl. rewrite Hreached. split; [done|]. split; [done|].
  rewrite list_fmap_compose. split.
  - intros b Hb. apply stop_calls_once; [done|]. by apply list_elem_of_fmap_2.
  - intros b Hb. apply stop_calls_absent. intros Hin.
    apply (Hdisj _ Hin). by apply list_elem_of_fmap_2.
Qed.

(** C10, as the code has it: the sweep writes neither the registry nor
    the agents: every project file is mapped to the agent it was mapped
    to before, whatever the [stop()] calls do.  When the sweep returns,
    that is when no [stop()] raised, the language server of every
    registered agent is stopped. *)
Theorem shutdown_sweep_keeps_registry w :
  _SERENA_AGENT_REGISTRY (shutdown_sweep stop_fault w).2 = _SERENA_AGENT_REGISTRY w /\
  agents (shutdown_sweep stop_fault w).2 = agents w /\
  (forall p, dict_getitem p (_SERENA_AGENT_REGISTRY (shutdown_sweep stop_fault w).2)
             = dict_getitem p (_SERENA_AGENT_REGISTRY w)) /\
  (wf w -> (shutdown_sweep stop_fault w).1 = Ok tt ->
   forall p a,
     dict_getitem p (_SERENA_AGENT_REGISTRY (shutdown_sweep stop_fault w).2) = Some a ->
     servers (shutdown_sweep stop_fault w).2 !! language_server a
       = Some {| ls_running := false |}).
Proof.
  rewrite shutdown_sweep_run, stop_each_run. simpl.
  split; [done|]. split; [done|]. split; [done|].
  intros Hwf Hout p a Hget. rewrite (sweep_outcome_Ok _ Hout).
  rewrite stop_all_lookup, decide_True.
  - destruct (wf_registry _ Hwf _ _ Hget) as [_ Ha].
    apply list_elem_of_lookup_2 in Ha.
    pose proof (wf_servers _ Hwf _ Ha) as Hlt.
    apply lookup_lt_is_Some_2 in Hlt as [sv ->]. done.
  - apply list_elem_of_fmap_2.
    apply (dict_values_getitem _ _ (wf_keys _ Hwf)). by exists p.
Qed.

Lemma length_stop_all (ls : list nat) sv : length (stop_all ls sv) = length sv.
Proof.
  revert sv. induction ls as [|l ls IH]; intros sv; [done|].
  change (stop_all (l :: ls) sv)
    with (stop_all ls (alter (fun _ => {| ls_running := false |}) l sv)).
  by rewrite IH, length_alter.
Qed.

(** The sweep keeps the store well formed, whatever its outcome. *)
Lemma shutdown_sweep_wf w : wf w -> wf (shutdown_sweep stop_fault w).2.
Proof.
  intros [Hag Hreg Hkeys Hsrv Hown].
  rewrite shutdown_sweep_run, stop_each_run. split; simpl; try done.
  intros a Ha. rewrite length_stop_all. by apply Hsrv.
Qed.

End ShutdownFacts.

Lemma wf_lookup_all project_tools ps :
  wf (lookup_all project_tools ps initial_world).2.
Proof.
  destruct (lookup_all_spec project_tools ps initial_world wf_initial)
    as (w & -> & Hwf & _).
  exact Hwf.
Qed.

Lemma lifespan_stops_current_registry_witness :
  wf initial_world /\
  exists w1,
    serve no_tools ["proj-a.yml"; "proj-b.yml"] (Raise (Exception "transport closed"))
      initial_world = (Raise (Exception "transport closed"), w1) /\
    (forall p, p ∈ ["proj-a.yml"; "proj-b.yml"] ->
       is_Some (dict_getitem p (_SERENA_AGENT_REGISTRY w1))) /\
    ((forall a, a ∈ dict_values (_SERENA_AGENT_REGISTRY w1) ->
        no_fault (language_server a) = None) ->
     exists w2 evs,
       server_lifespan no_fault
         (serve no_tools ["proj-a.yml"; "proj-b.yml"]
            (Raise (Exception "transport closed"))) initial_world
         = (Raise (Exception "transport closed"), w2) /\
       trace w2 = trace w1 ++ evs /\
       evs = (EvStopInvoked ∘ language_server <$>
                dict_values (_SERENA_AGENT_REGISTRY w1)) /\
       (forall a, a ∈ dict_values (_SERENA_AGENT_REGISTRY w1) ->
          stop_calls (language_server a) evs = 1) /\
       (forall l, l ∉ language_server <$> dict_values (_SERENA_AGENT_REGISTRY w1) ->
          stop_calls l evs = 0)).
Proof.
  split; [apply wf_initial|].
  apply (lifespan_stops_current_registry no_tools no_fault
           ["proj-a.yml"; "proj-b.yml"] (Raise (Exception "transport closed"))
           initial_world).
  apply wf_initial.
Defined.

Lemma lifespan_misses_agent_after_fault :
  let w2 :=
    (start_mcp_server (fun _ => Ok tt) (fun _ => Ok tt) no_tools first_server_faulty
       ["mcp_server"; "proj-a.yml"] (serve no_tools ["proj-b.yml"] (Ok tt))
       initial_world).2 in
  dict_getitem "proj-b.yml" (_SERENA_AGENT_REGISTRY w2) = Some agent_b /\
  stop_calls (language_server agent_b) (trace w2) = 0.
Proof. split; reflexivity. Qed.

Lemma shutdown_sweep_ends_at_first_fault_witness :
  exists w' evs,
    shutdown_sweep first_server_faulty two_projects
      = (Raise (Exception "stop failed"), w') /\
    trace w' = trace two_projects ++ evs /\
    evs = (EvStopInvoked ∘ language_server <$> [] ++ [agent_a]) /\
    (forall b, b ∈ [] ++ [agent_a] -> stop_calls (language_server b) evs = 1) /\
    (forall b, b ∈ [agent_b] -> stop_calls (language_server b) evs = 0).
Proof.
  apply (shutdown_sweep_ends_at_first_fault first_server_faulty two_projects
           [] agent_a [agent_b] (Exception "stop failed")).
  - apply wf_lookup_all.
  - reflexivity.
  - intros b Hb. by apply elem_of_nil in Hb.
  - reflexivity.
Defined.

Lemma shutdown_sweep_not_isolated :
  dict_getitem "proj-b.yml" (_SERENA_AGENT_REGISTRY two_projects) = Some agent_b /\
  (shutdown_sweep first_server_faulty two_projects).1
    = Raise (Exception "stop failed") /\
  stop_calls (language_server agent_b)
    (trace (shutdown_sweep first_server_faulty two_projects).2) = 0.
Proof. repeat split; reflexivity. Qed.

Lemma shutdown_sweep_leaves_backend_running :
  _SERENA_AGENT_REGISTRY (shutdown_sweep first_server_faulty two_projects).2
    = _SERENA_AGENT_REGISTRY two_projects /\
  dict_getitem "proj-b.yml"
    (_SERENA_AGENT_REGISTRY (shutdown_sweep first_server_faulty two_projects).2)
    = Some agent_b /\
  servers (shutdown_sweep first_server_faulty two_projects).2
    !! language_server agent_b = Some {| ls_running := true |}.
Proof. repeat split; reflexivity. Qed.

Lemma shutdown_sweep_keeps_registry_witness :
  _SERENA_AGENT_REGISTRY (shutdown_sweep no_fault two_projects).2
    = _SERENA_AGENT_REGISTRY two_projects /\
  servers (shutdown_sweep no_fault two_projects).2 !! language_server agent_b
    = Some {| ls_running := false |}.
Proof.
  destruct (shutdown_sweep_keeps_registry no_fault two_projects)
    as (Hreg & _ & _ & Hstopped).
  split; [exact Hreg|].
  apply (Hstopped (wf_lookup_all no_tools _) eq_refl "proj-b.yml" agent_b).
  reflexivity.
Defined.

(** ** Descriptors and the tool table *)

Section ToolFacts.
Context {FuncMetadata Schema : Type}.
Variable func_metadata : PyObj -> Result FuncMetadata.
Variable model_json_schema : FuncMetadata -> Result Schema.

Abbreviation make := (make_tool func_metadata model_json_schema).

Lemma or_empty_default x : or_empty x = default "" x.
Proof. destruct x as [s|]; simpl; [|done]. by destruct (decide (s = "")). Qed.

(** What [make_tool] does, case by case on the attribute [apply]. *)
Lemma make_tool_absent tool :
  apply tool = None ->
  make tool =
    Raise (AttributeError
             ("'" +:+ class_name tool +:+ "' object has no attribute 'apply'")).
Proof. intros H. unfold make_tool, getattr_apply. by rewrite H. Qed.

Lemma make_tool_none tool :
  apply tool = Some PyNone ->
  make tool =
    Raise (ValueError ("Tool does not have an apply method: " +:+ tool_str tool)).
Proof. intros H. unfold make_tool, getattr_apply. by rewrite H. Qed.

Lemma make_tool_present tool o :
  apply tool = Some o -> is_none o = false ->
  make tool =
    match func_metadata o with
    | Ok m =>
        match model_json_schema m with
        | Ok schema =>
            Ok {| fn := execute_fn tool;
                  name := get_name tool;
                  description := or_empty (obj_doc o);
                  parameters := schema;
                  fn_metadata := m;
                  is_async := false;
                  context_kwarg := None |}
        | Raise e => Raise e
        end
    | Raise e => Raise e
    end.
Proof.
  intros H Hn. unfold make_tool, getattr_apply. rewrite H. simpl.
  rewrite Hn. destruct (func_metadata o) as [m|e]; [|done]. simpl.
  by destruct (model_json_schema m).
Qed.

Lemma make_tool_Ok_inv tool d :
  make tool = Ok d ->
  exists o m schema, apply tool = Some o /\ is_none o = false /\
    func_metadata o = Ok m /\ model_json_schema m = Ok schema /\
    d = {| fn := execute_fn tool;
           name := get_name tool;
           description := or_empty (obj_doc o);
           parameters := schema;
           fn_metadata := m;
           is_async := false;
           context_kwarg := None |}.
Proof.
  intros Hd. destruct (apply tool) as [o|] eqn:Ha.
  - destruct (is_none o) eqn:Hn.
    + destruct o; try done. by rewrite (make_tool_none _ Ha) in Hd.
    + rewrite (make_tool_present _ _ Ha Hn) in Hd.
      destruct (func_metadata o) as [m|e] eqn:Hm; [|done].
      destruct (model_json_schema m) as [schema|e] eqn:Hs; [|done].
      injection Hd as <-. by exists o, m, schema.
  - by rewrite (make_tool_absent _ Ha) in Hd.
Qed.

(** The schema derivation of [make_tool] on [apply]: [func_metadata],
    then the JSON schema of the argument model. *)
Lemma make_tool_derivation tool o :
  apply tool = Some o -> o ≠ PyNone ->
  (forall e, (func_metadata o ≫= model_json_schema) = Raise e ->
     make tool = Raise e) /\
  (forall schema, (func_metadata o ≫= model_json_schema) = Ok schema ->
     is_Ok (make tool)).
Proof.
  intros Ha Hne. assert (Hn : is_none o = false) by (by destruct o).
  rewrite (make_tool_present _ _ Ha Hn). unfold mbind, Result_bind.
  destruct (func_metadata o) as [m|e0].
  - destruct (model_json_schema m) as [schema|e0]; split; intros ? H;
      try discriminate H; try (by injection H as ->). by eexists.
  - split; intros ? H; try discriminate H. by injection H as ->.
Qed.


(** C7: the descriptor that [make_tool] returns has the name that
    [get_name] gives, and as description the [__doc__] of [apply], or
    the empty string where there is none. *)
Theorem make_tool_name_and_description tool d :
  make tool = Ok d ->
  name d = get_name tool /\
  exists apply_fn, apply tool = Some apply_fn /\
    description d =
      match obj_doc apply_fn with
      | Some doc => doc
      | None => ""
      end.
Proof.
  intros Hd. destruct (make_tool_Ok_inv _ _ Hd) as (o & m & schema & Ha & _ & _ & _ & ->).
  simpl. split; [done|]. exists o. split; [done|].
  rewrite or_empty_default. by destruct (obj_doc o).
Qed.

Lemma last_named_cons_eq t ts :
  last_named (get_name t) (t :: ts) =
    match last_named (get_name t) ts with
    | Some t' => Some t'
    | None => Some t
    end.
Proof.
  unfold last_named. rewrite filter_cons_True by done.
  destruct (filter _ ts) as [|t' l]; [done|]. rewrite last_cons_cons.
  destruct (last (t' :: l)) eqn:Hlast; [done|]. by apply last_None in Hlast.
Qed.

Lemma last_named_cons_ne n t ts :
  get_name t ≠ n -> last_named n (t :: ts) = last_named n ts.
Proof. intros Hne. unfold last_named. by rewrite filter_cons_False. Qed.

(** C8: the keys of the tool table stay pairwise distinct through the
    loop that binds the tools, and after the loop a name is mapped to
    the descriptor of the last tool bound under it; a name that no tool
    of the loop has keeps its entry. *)
Theorem bind_tools_last_write_wins ts table table' :
  NoDup (dict_keys table) ->
  bind_tools func_metadata model_json_schema ts table = Ok table' ->
  NoDup (dict_keys table') /\
  forall n,
    match last_named n ts with
    | Some t => exists d, make t = Ok d /\ dict_getitem n table' = Some d
    | None => dict_getitem n table' = dict_getitem n table
    end.
Proof.
  revert table. induction ts as [|t ts IH]; intros table Hnd Hrun.
  - injection Hrun as <-. by split.
  - simpl in Hrun. destruct (make t) as [d|e] eqn:Hd; [|done].
    simpl in Hrun.
    destruct (IH _ (dict_setitem_keys_NoDup (get_name t) d table Hnd) Hrun)
      as [Hnd' Hall].
    split; [done|]. intros n. specialize (Hall n).
    destruct (decide (get_name t = n)) as [<-|Hne].
    + rewrite last_named_cons_eq.
      destruct (last_named (get_name t) ts) as [t'|]; [done|].
      exists d. split; [done|]. by rewrite Hall, dict_getitem_setitem_eq.
    + rewrite last_named_cons_ne by done.
      destruct (last_named n ts) as [t'|]; [done|].
      by rewrite Hall, dict_getitem_setitem_ne.
Qed.

End ToolFacts.

(** ** The thunk and the entry point *)

Section ServerFacts.
Context {FuncMetadata Schema : Type}.
Variable func_metadata : PyObj -> Result FuncMetadata.
Variable model_json_schema : FuncMetadata -> Result Schema.
Variable project_tools : string -> list Tool.
Variable stop_fault : nat -> option Exn.

Lemma first_repeated_None explicit (kwargs : Kwargs) :
  (forall k, k ∈ dict_keys kwargs -> k ∉ explicit) ->
  first_repeated explicit kwargs = None.
Proof.
  intros Hno. unfold first_repeated.
  destruct (filter _ (dict_keys kwargs)) as [|k l] eqn:Hf; [done|].
  assert (Hk : k ∈ filter (fun k => k ∈ explicit) (dict_keys kwargs))
    by (rewrite Hf; apply list_elem_of_here).
  apply list_elem_of_filter in Hk as [Hin Hkey]. by destruct (Hno k Hkey).
Qed.

(** Well-typed keyword arguments of a function without a reserved
    parameter bind no reserved name. *)
Lemma well_typed_not_reserved params (kwargs : Kwargs) k :
  (forall k, k ∈ reserved_names -> k ∉ params) ->
  well_typed params kwargs ->
  k ∈ dict_keys kwargs -> k ∉ reserved_names.
Proof. intros Hres [_ Hkeys] Hk Hin. by apply (Hres k Hin), Hkeys. Qed.

Lemma apply_ex_catching tool o kwargs w :
  apply tool = Some o ->
  apply_ex tool true true kwargs w =
    (Ok match call_obj o kwargs with
        | Ok payload => payload
        | Raise e => failure_description e
        end,
     {| agents := agents w; servers := servers w;
        _SERENA_AGENT_REGISTRY := _SERENA_AGENT_REGISTRY w;
        trace := trace w ++ [EvLogInfo (get_name tool +:+ ": call")] |}).
Proof.
  intros Ha. unfold apply_ex, getattr_apply. rewrite Ha.
  erewrite bind_Ok; [|reflexivity]. simpl.
  by destruct (call_obj o kwargs).
Qed.

(** C2, as the code has it: for a tool whose [apply] is a function
    with no parameter called [self], [log_call] or [catch_exceptions],
    the thunk of its descriptor, called with well-typed keyword
    arguments, does not raise: it returns a string, which is what
    [apply] returned or the description of the exception that [apply]
    raised. *)
Theorem thunk_returns_string tool d doc params body (kwargs : Kwargs) w :
  make_tool func_metadata model_json_schema tool = Ok d ->
  apply tool = Some (PyFunction doc params body) ->
  (forall k, k ∈ reserved_names -> k ∉ params) ->
  well_typed params kwargs ->
  exists s w',
    fn d kwargs w = (Ok s, w') /\
    s = match body kwargs with
        | Ok payload => payload
        | Raise e => failure_description e
        end.
Proof.
  intros Hd Ha Hres Hwt.
  destruct (make_tool_Ok_inv _ _ _ _ Hd) as (o & m & schema & _ & _ & _ & _ & ->).
  simpl. unfold execute_fn.
  assert (Hfree : forall k, k ∈ dict_keys kwargs -> k ∉ reserved_names)
    by (intros k; by apply (well_typed_not_reserved params)).
  rewrite first_repeated_None.
  - rewrite decide_False.
    + rewrite (apply_ex_catching _ _ _ _ Ha). simpl. by eexists _, _.
    + intros Hself. apply (Hfree _ Hself). apply list_elem_of_here.
  - intros k Hk Hin. apply (Hfree k Hk). by apply list_elem_of_further.
Qed.

(** C5: with no argument or with more than one, the entry point prints
    the usage message on the standard error stream and leaves by
    [sys.exit(1)]; nothing else has happened to the store: no agent, no
    language server, no registry entry.  The server is not run. *)
Theorem create_mcp_server_usage_error sys_argv serving w :
  length (drop 1 sys_argv) ≠ 1 ->
  let w' := {| agents := agents w; servers := servers w;
               _SERENA_AGENT_REGISTRY := _SERENA_AGENT_REGISTRY w;
               trace := trace w ++ [EvStderr (usage +:+ newline)] |} in
  create_mcp_server func_metadata model_json_schema project_tools stop_fault
    sys_argv w = (Raise (SystemExit 1), w') /\
  start_mcp_server func_metadata model_json_schema project_tools stop_fault
    sys_argv serving w = (Raise (SystemExit 1), w').
Proof.
  intros Hlen w'.
  assert (Hc : create_mcp_server func_metadata model_json_schema project_tools
                 stop_fault sys_argv w = (Raise (SystemExit 1), w')).
  { unfold create_mcp_server. rewrite bool_decide_eq_true_2 by done.
    erewrite bind_Ok; reflexivity. }
  split; [done|]. unfold start_mcp_server. by erewrite bind_Raise.
Qed.

End ServerFacts.

Lemma thunk_returns_string_witness :
  exists s w',
    fn failing_tool_descriptor [("name", VStr "main")] initial_world = (Ok s, w') /\
    s = match (fun _ : Kwargs => @Raise string (Exception "no such symbol"))
                [("name", VStr "main")] with
        | Ok payload => payload
        | Raise e => failure_description e
        end.
Proof.
  apply (thunk_returns_string callable_metadata unit_schema failing_tool
           failing_tool_descriptor (Some "Finds a symbol.") ["name"]
           (fun _ => Raise (Exception "no such symbol"))
           [("name", VStr "main")] initial_world).
  - reflexivity.
  - reflexivity.
  - intros k Hres Hin. apply list_elem_of_singleton in Hin as ->.
    repeat (apply elem_of_cons in Hres as [Hres|Hres]; [discriminate Hres|]).
    by apply elem_of_nil in Hres.
  - split.
    + apply NoDup_singleton.
    + intros k Hk. exact Hk.
Defined.

Lemma thunk_raises_on_reserved_parameter :
  (exists d,
     make_tool callable_metadata unit_schema log_call_tool = Ok d /\
     apply log_call_tool = Some (PyFunction None ["log_call"] (fun _ => Ok "done")) /\
     well_typed ["log_call"] [("log_call", VBool false)] /\
     exists msg,
       fn d [("log_call", VBool false)] initial_world
         = (Raise (TypeError msg), initial_world)) /\
  (exists d,
     make_tool callable_metadata unit_schema self_tool = Ok d /\
     apply self_tool = Some (PyFunction None ["self"] (fun _ => Ok "done")) /\
     well_typed ["self"] [("self", VInt 1)] /\
     exists msg,
       fn d [("self", VInt 1)] initial_world
         = (Raise (TypeError msg), initial_world)).
Proof.
  split; eexists; (split; [reflexivity|]); (split; [reflexivity|]);
    (split; [split; [apply NoDup_singleton | by intros k Hk]|]);
    eexists; reflexivity.
Qed.

Lemma create_mcp_server_usage_error_witness :
  length (drop 1 ["mcp_server"; "proj-a.yml"; "proj-b.yml"]) ≠ 1 /\
  let w' := {| agents := []; servers := []; _SERENA_AGENT_REGISTRY := [];
               trace := [EvStderr (usage +:+ newline)] |} in
  create_mcp_server callable_metadata unit_schema no_tools no_fault
    ["mcp_server"; "proj-a.yml"; "proj-b.yml"] initial_world
    = (Raise (SystemExit 1), w') /\
  start_mcp_server callable_metadata unit_schema no_tools no_fault
    ["mcp_server"; "proj-a.yml"; "proj-b.yml"] (serve no_tools [] (Ok tt))
    initial_world = (Raise (SystemExit 1), w').
Proof.
  split; [simpl; lia|].
  apply (create_mcp_server_usage_error callable_metadata unit_schema no_tools
           no_fault ["mcp_server"; "proj-a.yml"; "proj-b.yml"]
           (serve no_tools [] (Ok tt)) initial_world).
  simpl. lia.
Defined.


Lemma make_tool_name_and_description_witness :
  name (@Build_MCPTool unit unit (execute_fn log_call_tool) "set_logging" ""
          tt tt false None) = get_name log_call_tool /\
  exists apply_fn, apply log_call_tool = Some apply_fn /\
    description (@Build_MCPTool unit unit (execute_fn log_call_tool) "set_logging" ""
                   tt tt false None) =
      match obj_doc apply_fn with
      | Some doc => doc
      | None => ""
      end.
Proof.
  apply (make_tool_name_and_description callable_metadata unit_schema log_call_tool).
  reflexivity.
Defined.

Lemma bind_tools_last_write_wins_witness :
  NoDup (dict_keys ([] : dict (@MCPTool unit unit))) /\
  exists table',
    bind_tools callable_metadata unit_schema
      [failing_tool; log_call_tool; failing_tool] [] = Ok table' /\
    NoDup (dict_keys table') /\
    forall n,
      match last_named n [failing_tool; log_call_tool; failing_tool] with
      | Some t =>
          exists d, make_tool callable_metadata unit_schema t = Ok d /\
            dict_getitem n table' = Some d
      | None => dict_getitem n table' = dict_getitem n []
      end.
Proof.
  split; [apply NoDup_nil_2|]. eexists. split; [reflexivity|].
  apply (bind_tools_last_write_wins callable_metadata unit_schema
           [failing_tool; log_call_tool; failing_tool] []);
    [apply NoDup_nil_2 | reflexivity].
Defined.

(** ** A run of the whole module

    The registry starts empty; [proj-a.yml] is looked up, then
    [proj-b.yml], then [proj-a.yml] again; the sweep stops both language
    servers. *)
Example scenario_two_projects :
  let lookup := _get_create_serena_agent no_tools in
  let '(h1, w1) := lookup "proj-a.yml" initial_world in
  let '(h2, w2) := lookup "proj-b.yml" w1 in
  let '(h3, w3) := lookup "proj-a.yml" w2 in
  let '(r, w4) := shutdown_sweep no_fault w3 in
  h1 = Ok agent_a /\ h2 = Ok agent_b /\ h3 = Ok agent_a /\ r = Ok tt /\
  agents w4 = [agent_a; agent_b] /\
  servers w4 = [{| ls_running := false |}; {| ls_running := false |}] /\
  stop_calls 0 (trace w4) = 1 /\ stop_calls 1 (trace w4) = 1.
Proof. vm_compute. repeat split. Qed.

(** The server started for [proj-a.yml] with one tool: the table has the
    tool under its name, and the lifespan stops the agent when the run
    loop ends with an exception. *)
Example scenario_start_mcp_server :
  let project_tools := fun _ : string => [failing_tool] in
  let '(mcp, w1) :=
    create_mcp_server callable_metadata unit_schema project_tools no_fault
      ["mcp_server"; "proj-a.yml"] initial_world in
  let '(r, w2) :=
    start_mcp_server callable_metadata unit_schema project_tools no_fault
      ["mcp_server"; "proj-a.yml"]
      (serve project_tools [] (Raise (Exception "transport closed")))
      initial_world in
  (exists srv, mcp = Ok srv /\
     dict_keys (_tools (_tool_manager srv)) = ["find_symbol"]) /\
  r = Raise (Exception "transport closed") /\
  servers w1 = [{| ls_running := true |}] /\
  servers w2 = [{| ls_running := false |}].
Proof.
  cbv zeta. split; [eexists; split; [reflexivity | vm_compute; reflexivity]|].
  vm_compute. repeat split.
Qed.

(** * Further properties *)

(** ** Keys of a dictionary *)

Lemma dict_getitem_is_Some {V} k (d : dict V) :
  is_Some (dict_getitem k d) <-> k ∈ dict_keys d.
Proof.
  rewrite <- not_eq_None_Some, dict_getitem_None.
  split; [apply dec_stable | by intros ? ?].
Qed.

Lemma dict_keys_setitem_elem {V} n k (v : V) d :
  n ∈ dict_keys (dict_setitem k v d) <-> n = k \/ n ∈ dict_keys d.
Proof.
  destruct (dict_getitem k d) as [v0|] eqn:Hget.
  - rewrite dict_keys_setitem_present by eauto. split; [by right|].
    intros [->|?]; [|done]. apply dict_getitem_is_Some. eauto.
  - rewrite dict_setitem_absent by done. unfold dict_keys.
    rewrite fmap_app, elem_of_app. simpl. rewrite list_elem_of_singleton. tauto.
Qed.

(** ** The registry in any store *)

Section RegistryGrowth.
Variable project_tools : string -> list Tool.

Abbreviation lookup_agent := (_get_create_serena_agent project_tools).

Lemma lookup_agent_Ok p w :
  exists a w', lookup_agent p w = (Ok a, w') /\
    dict_getitem p (_SERENA_AGENT_REGISTRY w') = Some a.
Proof.
  destruct (dict_getitem p (_SERENA_AGENT_REGISTRY w)) as [a|] eqn:Hget.
  - eexists _, _. split; [by apply lookup_agent_reuse | done].
  - eexists _, _. split; [by apply lookup_agent_fresh|].
    simpl. apply dict_getitem_setitem_eq.
Qed.

(** What one lookup does to the keys and to the objects of the store. *)
Lemma lookup_agent_step p w :
  (dict_getitem p (_SERENA_AGENT_REGISTRY w) = None /\
   dict_keys (_SERENA_AGENT_REGISTRY (lookup_agent p w).2)
     = dict_keys (_SERENA_AGENT_REGISTRY w) ++ [p] /\
   length (agents (lookup_agent p w).2) = S (length (agents w)) /\
   length (servers (lookup_agent p w).2) = S (length (servers w))) \/
  (is_Some (dict_getitem p (_SERENA_AGENT_REGISTRY w)) /\
   _SERENA_AGENT_REGISTRY (lookup_agent p w).2 = _SERENA_AGENT_REGISTRY w /\
   agents (lookup_agent p w).2 = agents w /\
   servers (lookup_agent p w).2 = servers w).
Proof.
  destruct (dict_getitem p (_SERENA_AGENT_REGISTRY w)) as [a|] eqn:Hget.
  - right. rewrite (lookup_agent_reuse _ _ _ _ Hget). simpl. by split; [eexists|].
  - left. rewrite (lookup_agent_fresh _ _ _ Hget). simpl.
    rewrite dict_setitem_absent by done. unfold dict_keys.
    rewrite fmap_app, !length_app. simpl. repeat split; lia.
Qed.

Lemma lookup_all_Ok ps w : (lookup_all project_tools ps w).1 = Ok tt.
Proof.
  revert w. induction ps as [|p ps IH]; intros w; [done|].
  by rewrite lookup_all_step.
Qed.

(** X2: lookups only add to the registry.  After any sequence of
    lookups in any store, the agents and language servers that existed
    are still there, with new ones after them, and every project file
    that had an entry is still mapped to the same agent. *)
Theorem registry_only_grows ps w :
  (lookup_all project_tools ps w).1 = Ok tt /\
  (exists more, agents (lookup_all project_tools ps w).2 = agents w ++ more) /\
  (exists more, servers (lookup_all project_tools ps w).2 = servers w ++ more) /\
  forall q a, dict_getitem q (_SERENA_AGENT_REGISTRY w) = Some a ->
    dict_getitem q (_SERENA_AGENT_REGISTRY (lookup_all project_tools ps w).2) = Some a.
Proof.
  split; [apply lookup_all_Ok|].
  assert (Hext : extends w (lookup_all project_tools ps w).2).
  { revert w. induction ps as [|p ps IH]; intros w; [apply extends_refl|].
    rewrite lookup_all_step.
    eapply extends_trans; [apply lookup_agent_extends | apply IH]. }
  destruct Hext as [Hag Hsv Hreg]. by repeat split.
Qed.

(** X3: after a sequence of lookups the keys of the registry are the
    keys it had and the project files looked up, and as many agents and
    language servers have been made as keys were added: one per new
    project file, none for a repeated one. *)
Theorem registry_keys_after_lookups ps w :
  (forall q, q ∈ dict_keys (_SERENA_AGENT_REGISTRY (lookup_all project_tools ps w).2)
     <-> q ∈ dict_keys (_SERENA_AGENT_REGISTRY w) \/ q ∈ ps) /\
  length (agents (lookup_all project_tools ps w).2)
    + length (dict_keys (_SERENA_AGENT_REGISTRY w))
    = length (agents w)
      + length (dict_keys (_SERENA_AGENT_REGISTRY (lookup_all project_tools ps w).2)) /\
  length (servers (lookup_all project_tools ps w).2) + length (agents w)
    = length (servers w) + length (agents (lookup_all project_tools ps w).2).
Proof.
  revert w. induction ps as [|p ps IH]; intros w.
  - simpl. split; [|lia]. intros q. rewrite elem_of_nil. tauto.
  - rewrite lookup_all_step.
    destruct (IH (lookup_agent p w).2) as (Hkeys & Hag & Hsv).
    destruct (lookup_agent_step p w)
      as [(Hnone & Hk & Hla & Hls)|(Hsome & Hreg & Hla & Hls)].
    + split; [|rewrite Hk, length_app in Hag; simpl in Hag; lia].
      intros q. rewrite Hkeys, Hk, elem_of_app, list_elem_of_singleton, elem_of_cons.
      tauto.
    + split; [|rewrite Hreg, Hla in Hag; rewrite Hla, Hls in Hsv; lia].
      intros q. rewrite Hkeys, Hreg, elem_of_cons.
      apply dict_getitem_is_Some in Hsome.
      split; [tauto|]. intros [?|[->|?]]; tauto.
Qed.

End RegistryGrowth.

(** ** Errors of the descriptor builder and of the bind loop *)

Section BuilderFacts.
Context {FuncMetadata Schema : Type}.
Variable func_metadata : PyObj -> Result FuncMetadata.
Variable model_json_schema : FuncMetadata -> Result Schema.
Variable project_tools : string -> list Tool.
Variable stop_fault : nat -> option Exn.

Abbreviation make := (make_tool func_metadata model_json_schema).
Abbreviation bind := (bind_tools func_metadata model_json_schema).
Abbreviation lookup_agent := (_get_create_serena_agent project_tools).
Abbreviation create :=
  (create_mcp_server func_metadata model_json_schema project_tools stop_fault).
Abbreviation start :=
  (start_mcp_server func_metadata model_json_schema project_tools stop_fault).

(** X6: the bind loop stops at the first tool that [make_tool] rejects
    and raises that tool's exception; the tools after it are not looked
    at, and no table is returned. *)
Theorem bind_tools_first_failure pre t post table e :
  (forall t', t' ∈ pre -> is_Ok (make_tool func_metadata model_json_schema t')) ->
  make_tool func_metadata model_json_schema t = Raise e ->
  bind_tools func_metadata model_json_schema (pre ++ t :: post) table = Raise e.
Proof.
  intros Hpre Ht. revert table.
  induction pre as [|t0 pre IH]; intros table; simpl.
  - by rewrite Ht.
  - destruct (Hpre t0) as [d ->]; [apply list_elem_of_here|]. simpl.
    apply IH. intros t' Hin. apply Hpre. by apply list_elem_of_further.
Qed.

Lemma bind_tools_keys ts table table' :
  bind ts table = Ok table' ->
  forall n, n ∈ dict_keys table' <->
    n ∈ dict_keys table \/ exists t, t ∈ ts /\ get_name t = n.
Proof.
  revert table. induction ts as [|t ts IH]; intros table Hrun n.
  - injection Hrun as <-. split; [by left|].
    intros [?|(t & Hin & _)]; [done | by apply elem_of_nil in Hin].
  - simpl in Hrun. destruct (make t) as [d|e]; [|done]. simpl in Hrun.
    rewrite (IH _ Hrun n), dict_keys_setitem_elem. split.
    + intros [[->|?]|(t' & Hin & Hn)].
      * right. exists t. split; [apply list_elem_of_here | done].
      * by left.
      * right. exists t'. split; [by apply list_elem_of_further | done].
    + intros [?|(t' & Hin & Hn)]; [by left; right|].
      apply elem_of_cons in Hin as [->|Hin]; [by left; left|].
      right. by exists t'.
Qed.

(** The entry point with one argument: a lookup, then the bind loop. *)
Lemma create_mcp_server_one_argument sys_argv p w a w1 :
  drop 1 sys_argv = [p] ->
  lookup_agent p w = (Ok a, w1) ->
  create sys_argv w =
    (match bind (tools a) [] with
     | Ok table =>
         Ok {| _tool_manager := {| _tools := table |};
               lifespan := server_lifespan stop_fault |}
     | Raise e => Raise e
     end, w1).
Proof.
  intros Hdrop Hrun. unfold create_mcp_server. rewrite Hdrop. simpl.
  erewrite bind_Ok; [|reflexivity].
  erewrite bind_Ok; [|exact Hrun]. simpl.
  unfold mbind, M_bind, lift. by destruct (bind (tools a) []).
Qed.

End BuilderFacts.

(** ** The lifespan around any run loop *)

Section LifespanFacts.
Variable project_tools : string -> list Tool.
Variable stop_fault : nat -> option Exn.

Abbreviation sweep := (shutdown_sweep stop_fault).
Abbreviation registered w := (dict_values (_SERENA_AGENT_REGISTRY w)).

Lemma stop_calls_app l evs1 evs2 :
  stop_calls l (evs1 ++ evs2) = stop_calls l evs1 + stop_calls l evs2.
Proof. unfold stop_calls. by rewrite filter_app, length_app. Qed.

(** The lifespan is the run loop followed by the sweep over the registry
    that the run loop leaves; an exception of the sweep wins. *)
Lemma server_lifespan_run {A} (body : M A) w :
  server_lifespan stop_fault body w =
    (match sweep_outcome stop_fault (registered (body w).2) with
     | Ok _ => (body w).1
     | Raise e => Raise e
     end,
     (sweep (body w).2).2).
Proof.
  unfold server_lifespan, try_finally. destruct (body w) as [r w1]. simpl.
  rewrite shutdown_sweep_run, stop_each_run. simpl.
  by destruct (sweep_outcome stop_fault (registered w1)) as [[]|e].
Qed.

Lemma reached_prefix vs : exists rest, vs = reached stop_fault vs ++ rest.
Proof.
  induction vs as [|a vs [rest IH]]; [by exists []|]. simpl.
  destruct (stop_fault (language_server a)).
  - by exists vs.
  - exists rest. by rewrite <- IH.
Qed.

(** X9: an exception of a [stop()] replaces the outcome of the run
    loop, whatever it was: the lifespan raises the exception of the first
    [stop()] that fails, also when the run loop itself had raised. *)
Theorem lifespan_stop_fault_masks_outcome {A} (body : M A) w pre a post e :
  registered (body w).2 = pre ++ a :: post ->
  (forall b, b ∈ pre -> stop_fault (language_server b) = None) ->
  stop_fault (language_server a) = Some e ->
  (server_lifespan stop_fault body w).1 = Raise e /\
  trace (server_lifespan stop_fault body w).2 =
    trace (body w).2 ++ (EvStopInvoked ∘ language_server <$> pre ++ [a]).
Proof.
  intros Hvs Hpre Ha.
  destruct (first_fault_reached stop_fault pre a post e Hpre Ha)
    as (Hreached & _ & Hout).
  rewrite server_lifespan_run, shutdown_sweep_run, stop_each_run, Hvs. simpl.
  by rewrite Hout, Hreached.
Qed.

(** X10: when every [stop()] of the sweep returns, the lifespan ends as
    the run loop ended, with its result or its exception, for any run
    loop; the sweep has added one [stop()] call per registered agent to
    the trace and has left agents and registry as the run loop left
    them. *)
Theorem lifespan_keeps_outcome {A} (body : M A) w :
  (forall a, a ∈ registered (body w).2 -> stop_fault (language_server a) = None) ->
  (server_lifespan stop_fault body w).1 = (body w).1 /\
  agents (server_lifespan stop_fault body w).2 = agents (body w).2 /\
  _SERENA_AGENT_REGISTRY (server_lifespan stop_fault body w).2
    = _SERENA_AGENT_REGISTRY (body w).2 /\
  trace (server_lifespan stop_fault body w).2 =
    trace (body w).2 ++ (EvStopInvoked ∘ language_server <$> registered (body w).2).
Proof.
  intros Hno. destruct (no_fault_reached stop_fault _ Hno) as (Hreached & _ & Hout).
  rewrite server_lifespan_run, shutdown_sweep_run, stop_each_run. simpl.
  by rewrite Hout, Hreached.
Qed.

(** X11: whatever the [stop()] calls do, the sweep calls [stop()] at most
    once on a language server, and never on one that belongs to no
    registered agent. *)
Theorem shutdown_sweep_stops_only_registered w :
  wf w ->
  exists evs,
    trace (sweep w).2 = trace w ++ evs /\
    forall l,
      stop_calls l evs <= 1 /\
      (l ∉ language_server <$> registered w -> stop_calls l evs = 0).
Proof.
  intros Hwf. rewrite shutdown_sweep_run, stop_each_run. simpl.
  eexists. split; [reflexivity|]. intros l.
  pose proof (wf_values_own_server w Hwf) as Hnd.
  destruct (reached_prefix (registered w)) as [rest Hrest].
  rewrite Hrest, fmap_app in Hnd. apply NoDup_app in Hnd as (Hnd & _ & _).
  rewrite list_fmap_compose.
  assert (Hsub : l ∈ language_server <$> reached stop_fault (registered w) ->
                 l ∈ language_server <$> registered w).
  { intros Hin. rewrite Hrest, fmap_app, elem_of_app. by left. }
  destruct (decide (l ∈ language_server <$> reached stop_fault (registered w)))
    as [Hin|Hnot].
  - rewrite (stop_calls_once l _ Hnd Hin). split; [lia|]. intros Hno.
    exfalso. by apply Hno, Hsub.
  - rewrite (stop_calls_absent l _ Hnot). split; [lia | done].
Qed.

Lemma stop_all_twice (ls : list nat) sv :
  stop_all ls (stop_all ls sv) = stop_all ls sv.
Proof.
  apply list_eq. intros l. rewrite !stop_all_lookup.
  destruct (decide (l ∈ ls)); [|done]. by destruct (sv !! l).
Qed.

(** X12: the sweep leaves every entry in the registry, so a second sweep
    visits the same agents again: when no [stop()] raises, each
    registered agent's language server has had [stop()] called twice
    after two sweeps, and the second sweep changes no language server. *)
Theorem shutdown_sweep_twice w :
  wf w ->
  (forall a, a ∈ registered w -> stop_fault (language_server a) = None) ->
  (sweep (sweep w).2).1 = Ok tt /\
  servers (sweep (sweep w).2).2 = servers (sweep w).2 /\
  _SERENA_AGENT_REGISTRY (sweep (sweep w).2).2 = _SERENA_AGENT_REGISTRY w /\
  exists evs,
    trace (sweep (sweep w).2).2 = trace w ++ evs /\
    forall a, a ∈ registered w -> stop_calls (language_server a) evs = 2.
Proof.
  intros Hwf Hno.
  destruct (no_fault_reached stop_fault _ Hno) as (Hreached & Hcompleted & Hout).
  rewrite !shutdown_sweep_run, !stop_each_run. simpl.
  rewrite Hout, Hreached, Hcompleted, stop_all_twice.
  split; [done|]. split; [done|]. split; [done|].
  eexists. split; [by rewrite <- app_assoc|].
  intros a Ha. rewrite stop_calls_app, list_fmap_compose.
  rewrite stop_calls_once; [done | by apply wf_values_own_server |
                            by apply list_elem_of_fmap_2].
Qed.

End LifespanFacts.

(** ** The entry point with one argument *)

Section EntryPointFacts.
Context {FuncMetadata Schema : Type}.
Variable func_metadata : PyObj -> Result FuncMetadata.
Variable model_json_schema : FuncMetadata -> Result Schema.
Variable project_tools : string -> list Tool.
Variable stop_fault : nat -> option Exn.

Abbreviation bind := (bind_tools func_metadata model_json_schema).
Abbreviation lookup_agent := (_get_create_serena_agent project_tools).
Abbreviation create :=
  (create_mcp_server func_metadata model_json_schema project_tools stop_fault).
Abbreviation start :=
  (start_mcp_server func_metadata model_json_schema project_tools stop_fault).

Lemma bind_tools_NoDup ts table table' :
  NoDup (dict_keys table) -> bind ts table = Ok table' -> NoDup (dict_keys table').
Proof.
  revert table. induction ts as [|t ts IH]; intros table Hnd Hrun.
  - by injection Hrun as <-.
  - simpl in Hrun.
    destruct (make_tool func_metadata model_json_schema t) as [d|e]; [|done].
    eapply IH; [|exact Hrun]. by apply dict_setitem_keys_NoDup.
Qed.

Lemma lookup_agent_stop_calls p w l :
  stop_calls l (trace (lookup_agent p w).2) = stop_calls l (trace w).
Proof.
  destruct (dict_getitem p (_SERENA_AGENT_REGISTRY w)) as [a|] eqn:Hget.
  - rewrite (lookup_agent_reuse _ _ _ _ Hget). simpl.
    rewrite stop_calls_app. unfold stop_calls at 2.
    rewrite filter_cons_False by done. simpl. lia.
  - rewrite (lookup_agent_fresh _ _ _ Hget). simpl.
    rewrite !stop_calls_app. unfold stop_calls at 2 3.
    rewrite !filter_cons_False by done. simpl. lia.
Qed.

(** X7: with one argument, a server that [create_mcp_server] returns
    comes from one lookup of the project file and one run of the bind
    loop over the tools of that agent, from an empty table: the names in
    its table are the names of the agent's tools, each once, and running
    it runs the lifespan. *)
Theorem create_mcp_server_binds_agent_tools sys_argv p w mcp w' :
  drop 1 sys_argv = [p] ->
  create sys_argv w = (Ok mcp, w') ->
  exists a,
    lookup_agent p w = (Ok a, w') /\
    dict_getitem p (_SERENA_AGENT_REGISTRY w') = Some a /\
    bind (tools a) [] = Ok (_tools (_tool_manager mcp)) /\
    NoDup (dict_keys (_tools (_tool_manager mcp))) /\
    (forall n, n ∈ dict_keys (_tools (_tool_manager mcp)) <->
       exists t, t ∈ tools a /\ get_name t = n) /\
    forall serving, run mcp serving = server_lifespan stop_fault serving.
Proof.
  intros Hdrop Hcreate.
  destruct (lookup_agent_Ok project_tools p w) as (a & w1 & Hrun & Hget).
  rewrite (create_mcp_server_one_argument _ _ _ _ _ _ _ _ _ Hdrop Hrun) in Hcreate.
  destruct (bind (tools a) []) as [table|e] eqn:Hbind; [|done].
  injection Hcreate as <- <-. exists a. simpl.
  split; [done|]. split; [done|]. split; [done|].
  split; [by apply (bind_tools_NoDup (tools a) [] table); [apply NoDup_nil_2|]|].
  split; [|done]. intros n.
  rewrite (bind_tools_keys _ _ _ _ _ Hbind n). split; [|by right].
  intros [Hin|?]; [by apply elem_of_nil in Hin | done].
Qed.

(** X8: when [make_tool] rejects a tool of the agent, [create_mcp_server]
    raises that exception after the lookup has been made: the agent stays
    registered, a language server started for it keeps running, and
    [start_mcp_server] ends with the same exception without entering the
    lifespan, so that no [stop()] is called. *)
Theorem create_mcp_server_bind_failure sys_argv p w a w1 e serving :
  drop 1 sys_argv = [p] ->
  lookup_agent p w = (Ok a, w1) ->
  bind (tools a) [] = Raise e ->
  create sys_argv w = (Raise e, w1) /\
  start sys_argv serving w = (Raise e, w1) /\
  dict_getitem p (_SERENA_AGENT_REGISTRY w1) = Some a /\
  (forall l, stop_calls l (trace w1) = stop_calls l (trace w)) /\
  (dict_getitem p (_SERENA_AGENT_REGISTRY w) = None ->
   servers w1 !! language_server a = Some {| ls_running := true |}).
Proof.
  intros Hdrop Hrun Hbind.
  assert (Hcreate : create sys_argv w = (Raise e, w1)).
  { by rewrite (create_mcp_server_one_argument _ _ _ _ _ _ _ _ _ Hdrop Hrun), Hbind. }
  split; [done|]. split; [unfold start_mcp_server; by erewrite bind_Raise|].
  destruct (lookup_agent_Ok project_tools p w) as (a' & w1' & Hrun' & Hget).
  rewrite Hrun in Hrun'. injection Hrun' as <- <-. split; [done|]. split.
  - intros l. pose proof (lookup_agent_stop_calls p w l) as Hl.
    by rewrite Hrun in Hl.
  - intros Hnone. rewrite (lookup_agent_fresh _ _ _ Hnone) in Hrun.
    injection Hrun as <- <-. simpl.
    rewrite lookup_app_r by lia. by rewrite Nat.sub_diag.
Qed.

Lemma serve_eq lookups exit_with w :
  serve project_tools lookups exit_with w =
    (exit_with, (lookup_all project_tools lookups w).2).
Proof.
  pose proof (lookup_all_Ok project_tools lookups w) as Hok.
  destruct (lookup_all project_tools lookups w) as [r w2] eqn:Hrun.
  simpl in Hok. subst r. unfold serve. by erewrite bind_Ok by exact Hrun.
Qed.

Lemma serving_store_initial : serving_store initial_world.
Proof. split; [apply wf_initial | simpl; lia | done]. Qed.

Lemma lookup_agent_serving p w :
  serving_store w -> serving_store (lookup_agent p w).2.
Proof.
  intros [Hwf Hown Hquiet]. split.
  - destruct (lookup_agent_wf project_tools p w Hwf) as (a & w' & -> & Hwf' & _).
    done.
  - destruct (dict_getitem p (_SERENA_AGENT_REGISTRY w)) as [a|] eqn:Hget.
    + rewrite (lookup_agent_reuse _ _ _ _ Hget). simpl. done.
    + rewrite (lookup_agent_fresh _ _ _ Hget). simpl. intros l.
      rewrite length_app. simpl. intros Hl.
      destruct (decide (l < length (servers w))) as [Hlt|Hge].
      * destruct (Hown l Hlt) as (a & Ha & Hla). exists a.
        split; [|done]. apply elem_of_app. by left.
      * exists (fresh_agent project_tools p w). split.
        -- apply elem_of_app. right. apply list_elem_of_here.
        -- simpl. lia.
  - intros l. by rewrite lookup_agent_stop_calls.
Qed.

Lemma lookup_all_serving ps w :
  serving_store w -> serving_store (lookup_all project_tools ps w).2.
Proof.
  revert w. induction ps as [|p ps IH]; intros w Hs; [done|].
  rewrite lookup_all_step. by apply IH, lookup_agent_serving.
Qed.

(** X13: the store after a whole run of the process.  Started from the
    empty registry with one project file whose tools [make_tool]
    accepts, with any lookups while serving, any end of the run loop and
    no [stop()] that raises, every language server of the store has been
    stopped, by one [stop()] call each. *)
Theorem full_run_stops_every_backend prog p lookups exit_with table :
  bind (project_tools p) [] = Ok table ->
  (forall l, stop_fault l = None) ->
  let w' := (start [prog; p] (serve project_tools lookups exit_with)
               initial_world).2 in
  forall l, l < length (servers w') ->
    servers w' !! l = Some {| ls_running := false |} /\
    stop_calls l (trace w') = 1.
Proof.
  intros Hbind Hno.
  assert (Hnone : dict_getitem p (_SERENA_AGENT_REGISTRY initial_world) = None)
    by done.
  pose proof (lookup_agent_fresh project_tools p initial_world Hnone) as Hrun.
  set (w1 := (lookup_agent p initial_world).2) in *.
  assert (Hw1 : lookup_agent p initial_world
                = (Ok (fresh_agent project_tools p initial_world), w1))
    by (subst w1; by rewrite Hrun).
  assert (Hs1 : serving_store w1)
    by (subst w1; apply lookup_agent_serving, serving_store_initial).
  clear Hrun.
  pose proof (create_mcp_server_one_argument func_metadata model_json_schema
                project_tools stop_fault [prog; p] p initial_world _ w1 eq_refl Hw1)
    as Hcreate.
  simpl in Hcreate. rewrite Hbind in Hcreate.
  pose proof (lookup_all_serving lookups w1 Hs1) as [Hwf2 Hown2 Hquiet2].
  set (w2 := (lookup_all project_tools lookups w1).2) in *.
  assert (Hno2 : forall a, a ∈ dict_values (_SERENA_AGENT_REGISTRY w2) ->
            stop_fault (language_server a) = None) by (intros; apply Hno).
  destruct (no_fault_reached stop_fault _ Hno2) as (Hreached & Hcompleted & Hout).
  assert (Hstore :
    (start [prog; p] (serve project_tools lookups exit_with) initial_world).2
      = (shutdown_sweep stop_fault w2).2).
  { unfold start_mcp_server. erewrite bind_Ok by exact Hcreate.
    unfold run. simpl. by rewrite server_lifespan_run, serve_eq. }
  cbv zeta. rewrite Hstore, shutdown_sweep_run, stop_each_run. simpl.
  rewrite Hreached, Hcompleted.
  intros l. rewrite length_stop_all. intros Hl.
  destruct (Hown2 l Hl) as (a & Ha & Hla).
  apply list_elem_of_lookup in Ha as [i Hi].
  destruct (wf_agents _ Hwf2 _ _ Hi) as [_ Hreg].
  assert (Hin : l ∈ language_server <$> dict_values (_SERENA_AGENT_REGISTRY w2)).
  { rewrite <- Hla. apply list_elem_of_fmap_2.
    apply (dict_values_getitem _ _ (wf_keys _ Hwf2)). eauto. }
  split.
  - rewrite stop_all_lookup, decide_True by done.
    apply lookup_lt_is_Some_2 in Hl as [sv ->]. done.
  - rewrite stop_calls_app, Hquiet2, list_fmap_compose.
    rewrite stop_calls_once; [done | by apply wf_values_own_server | done].
Qed.

(** X14: the module keeps the store well formed.  Whatever the
    arguments, the tools, the lookups while serving, the end of the run
    loop and the [stop()] calls do, the store after [start_mcp_server] is
    well formed if the store before was. *)
Theorem start_mcp_server_keeps_wf sys_argv lookups exit_with w :
  wf w ->
  wf (start sys_argv (serve project_tools lookups exit_with) w).2.
Proof.
  intros Hwf. unfold start_mcp_server.
  destruct (decide (length (drop 1 sys_argv) = 1)) as [Hlen|Hlen].
  - destruct (drop 1 sys_argv) as [|p [|? ?]] eqn:Hdrop; try done.
    destruct (lookup_agent_wf project_tools p w Hwf) as (a & w1 & Hrun & Hwf1 & _).
    pose proof (create_mcp_server_one_argument func_metadata model_json_schema
                  project_tools stop_fault sys_argv p w a w1 Hdrop Hrun) as Hcreate.
    destruct (bind (tools a) []) as [table|e].
    + erewrite bind_Ok by exact Hcreate. unfold run. simpl.
      rewrite server_lifespan_run. simpl. apply shutdown_sweep_wf.
      rewrite serve_eq. simpl.
      by destruct (lookup_all_spec project_tools lookups w1 Hwf1) as (w2 & -> & ? & _).
    + by erewrite bind_Raise by exact Hcreate.
  - assert (Hcreate : create sys_argv w =
      (Raise (SystemExit 1),
       {| agents := agents w; servers := servers w;
          _SERENA_AGENT_REGISTRY := _SERENA_AGENT_REGISTRY w;
          trace := trace w ++ [EvStderr (usage +:+ newline)] |})).
    { unfold create_mcp_server. rewrite bool_decide_eq_true_2 by done.
      erewrite bind_Ok; reflexivity. }
    erewrite bind_Raise by exact Hcreate. simpl. by apply wf_trace.
Qed.

End EntryPointFacts.

(** ** Logging *)

(** X15: [configure_logging] ignores its arguments; after any calls of
    it the root logger has the handlers it had (none is removed or
    replaced) followed by one new handler per call, each writing to the
    standard error stream, never to the standard output, with
    [LOG_FORMAT]; and once it has been called the level is [INFO]. *)
Theorem configure_logging_calls_spec calls root :
  handlers (configure_logging_calls calls root) =
    handlers root ++
    replicate (length calls) {| stream := Stderr; formatter := Some LOG_FORMAT |} /\
  level (configure_logging_calls calls root) =
    match calls with
    | [] => level root
    | _ :: _ => INFO
    end.
Proof.
  revert root. induction calls as [|[args kwargs] calls IH]; intros root.
  - simpl. by rewrite app_nil_r.
  - simpl. destruct (IH (configure_logging args kwargs root)) as [Hh Hl].
    rewrite Hh, Hl. simpl. split; [by rewrite <- app_assoc|].
    by destruct calls.
Qed.

(** ** The further properties at concrete inputs *)

Lemma bind_tools_first_failure_witness :
  bind_tools callable_metadata unit_schema
    ([failing_tool] ++ broken_tool :: [log_call_tool]) []
  = Raise (ValueError ("Tool does not have an apply method: " +:+ "<BrokenTool>")).
Proof.
  apply (bind_tools_first_failure callable_metadata unit_schema
           [failing_tool] broken_tool [log_call_tool] []).
  - intros t' Ht'. apply list_elem_of_singleton in Ht' as ->.
    exists failing_tool_descriptor. reflexivity.
  - reflexivity.
Defined.

Lemma create_mcp_server_binds_agent_tools_witness :
  exists a,
    _get_create_serena_agent one_tool "proj-a.yml" initial_world
      = (Ok a, one_project [failing_tool]) /\
    dict_getitem "proj-a.yml" (_SERENA_AGENT_REGISTRY (one_project [failing_tool]))
      = Some a /\
    bind_tools callable_metadata unit_schema (tools a) []
      = Ok [("find_symbol", failing_tool_descriptor)] /\
    NoDup (dict_keys [("find_symbol", failing_tool_descriptor)]) /\
    (forall n, n ∈ dict_keys [("find_symbol", failing_tool_descriptor)] <->
       exists t, t ∈ tools a /\ get_name t = n) /\
    forall serving,
      run {| _tool_manager := {| _tools := [("find_symbol", failing_tool_descriptor)] |};
             lifespan := server_lifespan no_fault |} serving
      = server_lifespan no_fault serving.
Proof.
  apply (create_mcp_server_binds_agent_tools callable_metadata unit_schema one_tool
           no_fault ["mcp_server"; "proj-a.yml"] "proj-a.yml" initial_world
           {| _tool_manager := {| _tools := [("find_symbol", failing_tool_descriptor)] |};
              lifespan := server_lifespan no_fault |}
           (one_project [failing_tool])).
  - reflexivity.
  - reflexivity.
Defined.

Lemma create_mcp_server_bind_failure_witness :
  let e := ValueError ("Tool does not have an apply method: " +:+ "<BrokenTool>") in
  let w1 := one_project [failing_tool; broken_tool] in
  create_mcp_server callable_metadata unit_schema broken_tools no_fault
    ["mcp_server"; "proj-a.yml"] initial_world = (Raise e, w1) /\
  start_mcp_server callable_metadata unit_schema broken_tools no_fault
    ["mcp_server"; "proj-a.yml"] (serve broken_tools [] (Ok tt)) initial_world
    = (Raise e, w1) /\
  dict_getitem "proj-a.yml" (_SERENA_AGENT_REGISTRY w1)
    = Some (agent_with [failing_tool; broken_tool]) /\
  (forall l, stop_calls l (trace w1) = stop_calls l (trace initial_world)) /\
  (dict_getitem "proj-a.yml" (_SERENA_AGENT_REGISTRY initial_world) = None ->
   servers w1 !! language_server (agent_with [failing_tool; broken_tool])
     = Some {| ls_running := true |}).
Proof.
  apply (create_mcp_server_bind_failure callable_metadata unit_schema broken_tools
           no_fault ["mcp_server"; "proj-a.yml"] "proj-a.yml" initial_world
           (agent_with [failing_tool; broken_tool])
           (one_project [failing_tool; broken_tool])
           (ValueError ("Tool does not have an apply method: " +:+ "<BrokenTool>"))
           (serve broken_tools [] (Ok tt)));
    reflexivity.
Defined.

Lemma lifespan_stop_fault_masks_outcome_witness :
  let body := serve no_tools ["proj-a.yml"; "proj-b.yml"]
                (Raise (Exception "transport closed")) in
  (server_lifespan first_server_faulty body initial_world).1
    = Raise (Exception "stop failed") /\
  trace (server_lifespan first_server_faulty body initial_world).2 =
    trace (body initial_world).2 ++
    (EvStopInvoked ∘ language_server <$> [] ++ [agent_a]).
Proof.
  apply (lifespan_stop_fault_masks_outcome first_server_faulty
           (serve no_tools ["proj-a.yml"; "proj-b.yml"]
              (Raise (Exception "transport closed")))
           initial_world [] agent_a [agent_b] (Exception "stop failed")).
  - reflexivity.
  - intros b Hb. by apply elem_of_nil in Hb.
  - reflexivity.
Defined.

Lemma lifespan_keeps_outcome_witness :
  let body := serve no_tools ["proj-a.yml"; "proj-b.yml"]
                (Raise (Exception "transport closed")) in
  (server_lifespan no_fault body initial_world).1 = (body initial_world).1 /\
  agents (server_lifespan no_fault body initial_world).2
    = agents (body initial_world).2 /\
  _SERENA_AGENT_REGISTRY (server_lifespan no_fault body initial_world).2
    = _SERENA_AGENT_REGISTRY (body initial_world).2 /\
  trace (server_lifespan no_fault body initial_world).2 =
    trace (body initial_world).2 ++
    (EvStopInvoked ∘ language_server <$>
       dict_values (_SERENA_AGENT_REGISTRY (body initial_world).2)).
Proof.
  apply (lifespan_keeps_outcome no_fault
           (serve no_tools ["proj-a.yml"; "proj-b.yml"]
              (Raise (Exception "transport closed")))
           initial_world).
  intros a Ha. reflexivity.
Defined.

Lemma shutdown_sweep_stops_only_registered_witness :
  exists evs,
    trace (shutdown_sweep first_server_faulty two_projects).2
      = trace two_projects ++ evs /\
    forall l,
      stop_calls l evs <= 1 /\
      (l ∉ language_server <$> dict_values (_SERENA_AGENT_REGISTRY two_projects) ->
       stop_calls l evs = 0).
Proof.
  apply (shutdown_sweep_stops_only_registered first_server_faulty two_projects).
  apply wf_lookup_all.
Defined.

Lemma shutdown_sweep_twice_witness :
  (shutdown_sweep no_fault (shutdown_sweep no_fault two_projects).2).1 = Ok tt /\
  servers (shutdown_sweep no_fault (shutdown_sweep no_fault two_projects).2).2
    = servers (shutdown_sweep no_fault two_projects).2 /\
  _SERENA_AGENT_REGISTRY (shutdown_sweep no_fault (shutdown_sweep no_fault two_projects).2).2
    = _SERENA_AGENT_REGISTRY two_projects /\
  exists evs,
    trace (shutdown_sweep no_fault (shutdown_sweep no_fault two_projects).2).2
      = trace two_projects ++ evs /\
    forall a, a ∈ dict_values (_SERENA_AGENT_REGISTRY two_projects) ->
      stop_calls (language_server a) evs = 2.
Proof.
  apply (shutdown_sweep_twice no_fault two_projects).
  - apply wf_lookup_all.
  - intros a Ha. reflexivity.
Defined.

Lemma full_run_stops_every_backend_witness :
  let w' :=
    (start_mcp_server callable_metadata unit_schema one_tool no_fault
       ["mcp_server"; "proj-a.yml"]
       (serve one_tool ["proj-b.yml"] (Raise (Exception "transport closed")))
       initial_world).2 in
  1 < length (servers w') /\
  servers w' !! 1 = Some {| ls_running := false |} /\
  stop_calls 1 (trace w') = 1.
Proof.
  assert (Hl : 1 < length (servers
    (start_mcp_server callable_metadata unit_schema one_tool no_fault
       ["mcp_server"; "proj-a.yml"]
       (serve one_tool ["proj-b.yml"] (Raise (Exception "transport closed")))
       initial_world).2)) by (vm_compute; lia).
  split; [exact Hl|].
  apply (full_run_stops_every_backend callable_metadata unit_schema one_tool no_fault
           "mcp_server" "proj-a.yml" ["proj-b.yml"]
           (Raise (Exception "transport closed"))
           [("find_symbol", failing_tool_descriptor)]).
  - reflexivity.
  - intros l. reflexivity.
  - exact Hl.
Defined.

Lemma start_mcp_server_keeps_wf_witness :
  wf (start_mcp_server callable_metadata unit_schema broken_tools first_server_faulty
        ["mcp_server"; "proj-a.yml"] (serve broken_tools ["proj-b.yml"] (Ok tt))
        initial_world).2.
Proof.
  apply (start_mcp_server_keeps_wf callable_metadata unit_schema broken_tools
           first_server_faulty ["mcp_server"; "proj-a.yml"] ["proj-b.yml"] (Ok tt)
           initial_world).
  apply wf_initial.
Defined.
